(** * URL_Dangerouswords.py: fetch, classify, scan and save

    A shallow embedding of [src/URL/URL_Dangerouswords.py].

    - A Python [str] is a list of Unicode code points ([N]); [bytes] is a
      list of octets ([N] below 256).
    - The two regular expressions of the module are embedded as the
      matchers the [re] engine runs for them, and [findall]/[sub] as its
      left-to-right scan over non-overlapping matches.
    - The operating system (network, file system, clock) is a record of
      oracles that see the events issued so far; the program is written
      in a state-and-exception monad over the event trace and the memo
      table of [generate_timestamp].
    - The part of the Unicode database outside ASCII ([\w] membership and
      [str.lower]) is a pair of section variables: every result below
      holds for any such tables. *)

From Stdlib Require Import NArith List String Ascii.
From stdpp Require Import base decidable option list sets gmap sorting numbers.
From Equations Require Import Equations.
From Equations.Prop Require Import Logic.

Set Default Proof Using "Type".

(** ** Strings and bytes *)

Abbreviation str := (list N).
Abbreviation bytes := (list N).

(** A literal of the source, as its code points. *)
Definition py (s : string) : str := N_of_ascii <$> list_ascii_of_string s.
#[global] Arguments py : simpl never.

Definition chr_lt : N := 60.     (* '<' *)
Definition chr_gt : N := 62.     (* '>' *)
Definition chr_dquote : N := 34. (* the double quote *)
Definition chr_squote : N := 39. (* the single quote *)
Definition chr_dot : N := 46.    (* '.' *)
Definition chr_slash : N := 47.  (* '/' *)
Definition chr_colon : N := 58.  (* ':' *)
Definition chr_hash : N := 35.   (* '#' *)
Definition chr_nl : N := 10.     (* '\n' *)

Definition str_eqb (a b : str) : bool := bool_decide (a = b).

(** [a.startswith(p)] *)
Fixpoint startswith (p a : str) : bool :=
  match p, a with
  | [], _ => true
  | c :: p', d :: a' => (c =? d)%N && startswith p' a'
  | _ :: _, [] => false
  end.

(** [a.endswith(p)] *)
Definition endswith (p a : str) : bool := startswith (rev p) (rev a).

(** [sep.join(l)] *)
Fixpoint str_join (sep : str) (l : list str) : str :=
  match l with
  | [] => []
  | [x] => x
  | x :: l' => x ++ sep ++ str_join sep l'
  end.

(** [s.strip(chars)] with an explicit set of characters. *)
Fixpoint lstrip_by (f : N -> bool) (s : str) : str :=
  match s with
  | c :: s' => if f c then lstrip_by f s' else s
  | [] => []
  end.

Definition strip_by (f : N -> bool) (s : str) : str :=
  rev (lstrip_by f (rev (lstrip_by f s))).

Definition is_quote (c : N) : bool := (c =? chr_dquote)%N || (c =? chr_squote)%N.

(** [s.strip(q)] where [q] holds the double and the single quote *)
Definition strip_quotes (s : str) : str := strip_by is_quote s.

(** [str.isspace] per code point, the set [s.strip()] removes. *)
Definition py_isspace (c : N) : bool :=
  ((9 <=? c) && (c <=? 13) || (28 <=? c) && (c <=? 32) || (c =? 133) || (c =? 160)
   || (c =? 5760) || (8192 <=? c) && (c <=? 8202) || (c =? 8232) || (c =? 8233)
   || (c =? 8239) || (c =? 8287) || (c =? 12288))%N.

(** [s.strip()] *)
Definition strip (s : str) : str := strip_by py_isspace s.

(** The longest prefix of [s] whose characters satisfy [f], and the rest. *)
Fixpoint span (f : N -> bool) (s : str) : str * str :=
  match s with
  | c :: s' => if f c then let '(a, b) := span f s' in (c :: a, b) else ([], s)
  | [] => ([], [])
  end.

(** [s.split(sep)] for a one-character separator. *)
Fixpoint split_on (sep : N) (s : str) : list str :=
  match s with
  | [] => [[]]
  | c :: s' =>
      if (c =? sep)%N then [] :: split_on sep s'
      else match split_on sep s' with
           | x :: l => (c :: x) :: l
           | [] => [[c]]
           end
  end.

(** [s.count(c)] for a one-character [c]. *)
Definition count_char (c : N) (s : str) : nat :=
  length (filter (fun d => d = c) s).

(** [s.partition(c)[0]]: the text before the first [c]. *)
Definition before_first (c : N) (s : str) : str := (span (fun d => negb (d =? c)%N) s).1.

(** [s.rfind(c)], [None] standing for [-1]. *)
Fixpoint rfind (c : N) (s : str) : option nat :=
  match s with
  | [] => None
  | d :: s' =>
      match rfind c s' with
      | Some i => Some (S i)
      | None => if (d =? c)%N then Some 0 else None
      end
  end.

(** [urllib.parse.unwrap]: blanks, one pair of angle brackets around the
    URL and a leading [URL:] are taken off. *)
Definition unwrap (url : str) : str :=
  let url := strip url in
  let url :=
    if bool_decide (list.head url = Some chr_lt) && bool_decide (list.last url = Some chr_gt)
    then strip (removelast (tail url))
    else url in
  if startswith (py "URL:") url then strip (drop 4 url) else url.

(** [urllib.parse._splittag]: the URL before its last [#], and the
    fragment after it when there is one. *)
Definition splittag (url : str) : str * option str :=
  match rfind chr_hash url with
  | Some i => (take i url, Some (drop (S i) url))
  | None => (url, None)
  end.

(** [Request.full_url] of a request built for [url]: the unwrapped URL,
    less an empty fragment. *)
Definition full_url (url : str) : str :=
  match splittag (unwrap url) with
  | (path, Some (c :: fragment)) => path ++ chr_hash :: c :: fragment
  | (path, _) => path
  end.

(** [urllib]'s [_splittype] finds a scheme: the text starts with one or
    more characters other than [/] and [:] followed by a colon. *)
Definition has_type (url : str) : bool :=
  let '(a, b) := span (fun c => negb ((c =? chr_slash)%N || (c =? chr_colon)%N)) url in
  negb (str_eqb a []) && bool_decide (list.head b = Some chr_colon).

(** The test [Request] makes of the URL it is built for: unwrapped and
    without its fragment, it has a scheme. *)
Definition has_scheme (url : str) : bool := has_type (splittag (unwrap url)).1.

(** Comparison of [str] values: lexicographic on code points. *)
Fixpoint str_leb (a b : str) : bool :=
  match a, b with
  | [], _ => true
  | _ :: _, [] => false
  | x :: a', y :: b' =>
      if (x <? y)%N then true else if (x =? y)%N then str_leb a' b' else false
  end.

Definition str_le (a b : str) : Prop := str_leb a b = true.

#[global] Instance str_le_dec a b : Decision (str_le a b).
Proof. unfold str_le. apply _. Defined.

(** [bytes.decode('utf-8')] in strict mode: [None] stands for
    [UnicodeDecodeError].  Over-long forms, surrogates and code points
    above 0x10FFFF are refused. *)
Definition is_cont (b : N) : bool := ((128 <=? b) && (b <=? 191))%N.

Definition second_ok3 (b0 b1 : N) : bool :=
  (if b0 =? 224 then (160 <=? b1) && (b1 <=? 191)
   else if b0 =? 237 then (128 <=? b1) && (b1 <=? 159)
   else is_cont b1)%N.

Definition second_ok4 (b0 b1 : N) : bool :=
  (if b0 =? 240 then (144 <=? b1) && (b1 <=? 191)
   else if b0 =? 244 then (128 <=? b1) && (b1 <=? 143)
   else is_cont b1)%N.

Fixpoint decode_utf8 (bs : bytes) : option str :=
  match bs with
  | [] => Some []
  | b0 :: r0 =>
      if (b0 <? 128)%N then cons b0 <$> decode_utf8 r0
      else if ((194 <=? b0) && (b0 <=? 223))%N then
        match r0 with
        | b1 :: r1 =>
            if is_cont b1
            then cons ((b0 - 192) * 64 + (b1 - 128))%N <$> decode_utf8 r1
            else None
        | _ => None
        end
      else if ((224 <=? b0) && (b0 <=? 239))%N then
        match r0 with
        | b1 :: b2 :: r2 =>
            if second_ok3 b0 b1 && is_cont b2
            then cons ((b0 - 224) * 4096 + (b1 - 128) * 64 + (b2 - 128))%N
                   <$> decode_utf8 r2
            else None
        | _ => None
        end
      else if ((240 <=? b0) && (b0 <=? 244))%N then
        match r0 with
        | b1 :: b2 :: b3 :: r3 =>
            if second_ok4 b0 b1 && is_cont b2 && is_cont b3
            then cons ((b0 - 240) * 262144 + (b1 - 128) * 4096
                       + (b2 - 128) * 64 + (b3 - 128))%N <$> decode_utf8 r3
            else None
        | _ => None
        end
      else None
  end.

(** ** pathlib: pure POSIX paths, as in CPython 3.12 *)

(** A parsed path: the root ([], [/] or [//]) and the components after it. *)
Record Path := { p_root : str; p_tail : list str }.

#[global] Instance Path_eq_dec : EqDecision Path.
Proof. solve_decision. Defined.

(** [posixpath.splitroot] *)
Definition splitroot (s : str) : str * str :=
  match s with
  | c0 :: s1 =>
      if (c0 =? chr_slash)%N then
        match s1 with
        | c1 :: s2 =>
            if (c1 =? chr_slash)%N then
              match s2 with
              | c2 :: _ => if (c2 =? chr_slash)%N then ([chr_slash], s1)
                           else ([chr_slash; chr_slash], s2)
              | [] => ([chr_slash; chr_slash], s2)
              end
            else ([chr_slash], s1)
        | [] => ([chr_slash], s1)
        end
      else ([], s)
  | [] => ([], [])
  end.

Definition keep_component (x : str) : bool :=
  negb (str_eqb x []) && negb (str_eqb x [chr_dot]).

(** [Path(s)]: empty and [.] components are dropped. *)
Definition Path_of (s : str) : Path :=
  let '(root, rel) := splitroot s in
  {| p_root := root; p_tail := filter (fun x => keep_component x = true) (split_on chr_slash rel) |}.

(** [str(p)] *)
Definition Path_str (p : Path) : str :=
  match p_root p, p_tail p with
  | [], [] => [chr_dot]
  | root, tail => root ++ str_join [chr_slash] tail
  end.

(** [p.name] *)
Definition Path_name (p : Path) : str := default [] (list.last (p_tail p)).

(** [p.suffix]: from the last dot of the name on, unless that dot is the
    first or the last character. *)
Definition Path_suffix (p : Path) : str :=
  let name := Path_name p in
  match rfind chr_dot name with
  | Some i => if (0 <? i) && (S i <? length name) then drop i name else []
  | None => []
  end.

(** [p.parent] *)
Definition Path_parent (p : Path) : Path :=
  {| p_root := p_root p; p_tail := removelast (p_tail p) |}.

(** [p / other] for a string [other]: an absolute [other] replaces [p]. *)
Definition Path_join (p : Path) (other : str) : Path :=
  let q := Path_of other in
  match p_root q with
  | [] => {| p_root := p_root p; p_tail := p_tail p ++ p_tail q |}
  | _ => q
  end.

(** The path [p.with_suffix(suffix)] builds when [p] has a name; the
    suffixes of the source start with a dot and hold no slash. *)
Definition Path_replace_suffix (p : Path) (suffix : str) : Path :=
  let name := Path_name p in
  let stem := take (length name - length (Path_suffix p)) name in
  {| p_root := p_root p; p_tail := removelast (p_tail p) ++ [stem ++ suffix] |}.

(** ** Exceptions *)

Inductive ExcClass :=
| URLFetcherError | URLError | HTTPError | OSError | ValueError
| UnicodeDecodeError | TypeError | HTTPException | EOFError | KeyboardInterrupt.

#[global] Instance ExcClass_eq_dec : EqDecision ExcClass.
Proof. solve_decision. Defined.

(** An exception: its class and [str(e)]. *)
Record exn := Exc { exc_class : ExcClass; exc_msg : str }.

(** [isinstance(e, OSError)] *)
Definition is_OSError (c : ExcClass) : bool :=
  match c with OSError | URLError | HTTPError => true | _ => false end.

(** [isinstance(e, (URLError, HTTPError))] *)
Definition is_URLError (c : ExcClass) : bool :=
  match c with URLError | HTTPError => true | _ => false end.

(** [isinstance(e, Exception)] *)
Definition is_Exception (c : ExcClass) : bool :=
  match c with KeyboardInterrupt => false | _ => true end.

Inductive result (A : Type) :=
| Ok (a : A)
| Raise (e : exn).
Arguments Ok {A} a.
Arguments Raise {A} e.

(** ** The environment *)

(** What [write] is given: [bytes] or [str]. *)
Inductive Content :=
| CBytes (b : bytes)
| CStr (s : str).

Record datetime := {
  year : nat; month : nat; day : nat; hour : nat; minute : nat; second : nat }.

(** An HTTP response: the value of its [Content-Type] header when there is
    one, and what [read()] gives. *)
Record Response := {
  resp_content_type : option str;
  resp_read : result bytes }.

(** What the program does to the outside world: it prompts for a line,
    asks [urlopen] for a URL that has a scheme, queries and changes the
    file system, reads the clock, prints a line. *)
Inductive Event :=
| EInput (prompt : str)
| ERequest (url : str) (headers : list (str * str))
| EIsDir (p : Path)
| EMkdir (p : Path)
| EOpen (p : Path) (binary : bool)
| EWrite (p : Path) (data : Content)
| ENow
| EPrint (line : str).

(** The answers of the outside world, each in view of the events so far. *)
Record World := {
  w_input : list Event -> str -> result str;
  w_urlopen : list Event -> str -> list (str * str) -> result Response;
  w_is_dir : list Event -> Path -> bool;
  w_mkdir : list Event -> Path -> option exn;
  w_open : list Event -> Path -> bool -> option exn;
  w_write : list Event -> Path -> Content -> option exn;
  w_now : list Event -> datetime;
  (** the text of the [UnicodeDecodeError] for an undecodable body *)
  w_decode_msg : bytes -> str;
  (** the text of the [ValueError] for a URL without a scheme *)
  w_unknown_url_msg : str -> str;
  (** the order in which a set is iterated *)
  w_iter : gset str -> list str;
  w_iter_perm : forall X, w_iter X ≡ₚ elements X }.

(** The state of a run: the events so far and the memo table of
    [generate_timestamp] (one entry, for the empty argument tuple). *)
Record State := {
  st_trace : list Event;
  st_timestamp : option str }.

Definition initial_state : State := {| st_trace := []; st_timestamp := None |}.

(** ** Module constants *)

Inductive ContentType := HTML | JPEG.

(** [ContentType.X.value] *)
Definition ContentType_value (c : ContentType) : str :=
  match c with
  | HTML => py "text/html"
  | JPEG => py "image/jpeg"
  end.

Definition DANGEROUS_WORDS : gset str :=
  list_to_set (py <$> ["bomb"; "kill"; "murder"; "terror";
                       "terrorist"; "terrorists"; "terrorism"]%string).

Definition VALID_BINARY_EXT : gset str :=
  list_to_set (py <$> [".jpg"; ".png"; ".bin"]%string).

Definition VALID_TEXT_EXT : gset str :=
  list_to_set (py <$> [".txt"; ".html"]%string).

Definition USER_AGENT : str := py "Mozilla/5.0".

(** ** HTML_CLEANER: the pattern [<[^<]+?>] and its [sub('', _)] *)

(** After [<] and one character other than [<], the lazy [[^<]+?] gives up
    as few characters as it can: the match ends at the first [>], and fails
    when a [<] or the end of the text comes first.  The result is the text
    after the match. *)
Fixpoint lazy_close (s : str) : option str :=
  match s with
  | [] => None
  | c :: r => if (c =? chr_gt)%N then Some r
              else if (c =? chr_lt)%N then None
              else lazy_close r
  end.

(** A match of [<[^<]+?>] that starts at the head of [s]. *)
Definition HTML_CLEANER_match (s : str) : option str :=
  match s with
  | c0 :: c1 :: r =>
      if (c0 =? chr_lt)%N && negb (c1 =? chr_lt)%N then lazy_close r else None
  | _ => None
  end.

Lemma lazy_close_length s r : lazy_close s = Some r -> length r < length s.
Proof.
  induction s as [|c s IH]; simpl; [discriminate|].
  destruct (c =? chr_gt)%N; [intros [= <-]; lia|].
  destruct (c =? chr_lt)%N; [discriminate|]. intros H%IH. lia.
Qed.

Lemma HTML_CLEANER_match_length s r :
  HTML_CLEANER_match s = Some r -> length r < length s.
Proof.
  destruct s as [|c0 [|c1 s]]; simpl; try discriminate.
  destruct (_ && _); [|discriminate]. intros H%lazy_close_length. lia.
Qed.

(** [HTML_CLEANER.sub('', s)]: every match found scanning from the left is
    dropped, the scan goes on after it; a character where no match starts
    is kept. *)
Equations? HTML_CLEANER_sub (s : str) : str by wf (length s) lt :=
  HTML_CLEANER_sub s with inspect (HTML_CLEANER_match s) => {
    | exist _ (Some r) _ => HTML_CLEANER_sub r
    | exist _ None _ with s => {
       | nil => nil
       | cons c s' => c :: HTML_CLEANER_sub s' } }.
Proof. by apply HTML_CLEANER_match_length. Qed.

(** ** Sample environments

    A Unicode database that knows nothing beyond ASCII, and a world that
    answers the prompts from a list, answers every request through a
    function of the URL, knows a list of directories and never fails on
    the file system. *)

Definition no_unicode_isalnum (c : N) : bool := false.
Definition no_unicode_tolower (s : str) (i : nat) (c : N) : str := [c].

Definition inputs_so_far (tr : list Event) : nat :=
  length (List.filter (fun e => match e with EInput _ => true | _ => false end) tr).

(** A clock that moves on with every event. *)
Definition sample_clock (n : nat) : datetime :=
  {| year := 2024; month := 3; day := 7; hour := 9;
     minute := (n / 60) mod 60; second := n mod 60 |}.

Definition sample_world (inputs : list str) (serve : str -> result Response)
    (dirs : list Path) : World :=
  {| w_input tr _ := Ok (nth (inputs_so_far tr) inputs []);
     w_urlopen tr url _ := serve url;
     w_is_dir _ p := bool_decide (p ∈ dirs);
     w_mkdir _ _ := None;
     w_open _ _ _ := None;
     w_write _ _ _ := None;
     w_now tr := sample_clock (length tr);
     w_decode_msg _ := py "invalid start byte";
     w_unknown_url_msg url := py "unknown url type: '" ++ full_url url ++ py "'";
     w_iter X := elements X;
     w_iter_perm X := reflexivity (elements X) |}.

(** A server for [http] and [https] URLs; [urlopen] has no handler for any
    other scheme. *)
Definition serve_http (content_type : string) (body : bytes) (url : str) :
    result Response :=
  if startswith (py "http://") url || startswith (py "https://") url
  then Ok {| resp_content_type := Some (py content_type); resp_read := Ok body |}
  else Raise (Exc URLError (py "<urlopen error unknown url type>")).

(** The URLs asked for among the events [tr]. *)
Definition requests_of (tr : list Event) : list str :=
  omap (fun e => match e with ERequest url _ => Some url | _ => None end) tr.

(** The writes among the events [tr]: where, and what. *)
Definition writes_of (tr : list Event) : list (Path * Content) :=
  omap (fun e => match e with EWrite p data => Some (p, data) | _ => None end) tr.

(** The events of a step from [st] to [st']. *)
Definition events_since (st st' : State) : list Event :=
  drop (length (st_trace st)) (st_trace st').

Section Unicode.

(** [Py_UNICODE_ISALNUM] on the code points from 128 on. *)
Variable unicode_isalnum : N -> bool.

(** [lower_ucs4] on the code points from 128 on: the lower-case mapping of
    the character [c] at index [i] of [s] (one character may map to
    several, and capital sigma looks at its neighbours). *)
Variable unicode_tolower : str -> nat -> N -> str.

Definition ascii_isalnum (c : N) : bool :=
  ((48 <=? c) && (c <=? 57) || (65 <=? c) && (c <=? 90) || (97 <=? c) && (c <=? 122))%N.

(** [\w] of a [str] pattern: alphanumeric or the underscore. *)
Definition is_word (c : N) : bool :=
  if (c <? 128)%N then ascii_isalnum c || (c =? 95)%N else unicode_isalnum c.

Definition is_word_opt (o : option N) : bool :=
  match o with Some c => is_word c | None => false end.

Definition lower_char (s : str) (i : nat) (c : N) : str :=
  if (c <? 128)%N then [if (65 <=? c)%N && (c <=? 90)%N then (c + 32)%N else c]
  else unicode_tolower s i c.

(** [s.lower()] *)
Definition str_lower (s : str) : str := concat (imap (lower_char s) s).

(** ** WORD_PATTERN: the pattern [\b\w+\b] and its [findall] *)

(** [\b] between the character [prev] before the position and the text [s]
    from it on. *)
Definition word_boundary (prev : option N) (s : str) : bool :=
  xorb (is_word_opt prev) (is_word_opt (list.head s)).

(** A match of [\b\w+\b] that starts at the head of [s]: the greedy [\w+]
    takes the whole run of word characters, after which the closing [\b]
    holds; no shorter run ends at a boundary.  The result is the match and
    the text after it. *)
Definition WORD_PATTERN_match (prev : option N) (s : str) : option (str * str) :=
  if word_boundary prev s then
    match span is_word s with
    | ([], _) => None
    | (tok, rest) => Some (tok, rest)
    end
  else None.

Lemma span_app f s : (span f s).1 ++ (span f s).2 = s.
Proof.
  induction s as [|c s IH]; simpl; [done|].
  destruct (f c); [|done]. destruct (span f s) as [a b]. simpl in *. by rewrite IH.
Qed.

Lemma WORD_PATTERN_match_length prev s tok rest :
  WORD_PATTERN_match prev s = Some (tok, rest) -> length rest < length s.
Proof.
  unfold WORD_PATTERN_match. destruct (word_boundary prev s); [|done].
  pose proof (span_app is_word s) as Happ.
  destruct (span is_word s) as [[|c a] b]; [done|]. intros [= <- <-].
  simpl in Happ. rewrite <- Happ. simpl. rewrite length_app. lia.
Qed.

(** [WORD_PATTERN.findall(s)], [prev] being the character before [s]. *)
Equations? findall (prev : option N) (s : str) : list str by wf (length s) lt :=
  findall prev s with inspect (WORD_PATTERN_match prev s) => {
    | exist _ (Some (tok, rest)) _ => tok :: findall (list.last tok) rest
    | exist _ None _ with s => {
       | nil => nil
       | cons c s' => findall (Some c) s' } }.
Proof. by eapply WORD_PATTERN_match_length. Qed.

Definition WORD_PATTERN_findall (s : str) : list str := findall None s.

(** [count_words]: the memo table of [lru_cache] does not change the value
    of a pure function and is left out. *)
Definition count_words (text : str) : gset str :=
  list_to_set (str_lower <$> WORD_PATTERN_findall text) ∩ DANGEROUS_WORDS.

(** ** The monad of the program: state and exceptions *)

Variable w : World.

Definition M (A : Type) : Type := State -> result A * State.

Definition ret {A} (a : A) : M A := fun st => (Ok a, st).

Definition bind {A B} (m : M A) (k : A -> M B) : M B :=
  fun st => match m st with
            | (Ok a, st') => k a st'
            | (Raise e, st') => (Raise e, st')
            end.

Definition raise {A} (c : ExcClass) (msg : str) : M A :=
  fun st => (Raise (Exc c msg), st).

(** [try: body except <classes of catch> as e: handler e] *)
Definition try_except {A} (body : M A) (catch : ExcClass -> bool)
    (handler : exn -> M A) : M A :=
  fun st => match body st with
            | (Raise e, st') =>
                if catch (exc_class e) then handler e st' else (Raise e, st')
            | r => r
            end.

Notation "x <- m ;; k" := (bind m (fun x => k))
  (at level 100, m at next level, right associativity, only parsing).
Notation "m ;;; k" := (bind m (fun _ => k))
  (at level 100, right associativity, only parsing).

Definition emit (e : Event) (st : State) : State :=
  {| st_trace := st_trace st ++ [e]; st_timestamp := st_timestamp st |}.

Definition lift_result {A} (r : result A) : M A := fun st => (r, st).

(** [input(prompt)] *)
Definition input (prompt : str) : M str :=
  fun st => (w_input w (st_trace st) prompt, emit (EInput prompt) st).

(** [print(line)] *)
Definition print (line : str) : M unit :=
  fun st => (Ok tt, emit (EPrint line) st).

(** [urlopen]: building the [Request] raises [ValueError] for a URL without
    a scheme, before anything is sent. *)
Definition urlopen (url : str) (headers : list (str * str)) : M Response :=
  if has_scheme url then
    fun st => (w_urlopen w (st_trace st) url headers, emit (ERequest url headers) st)
  else raise ValueError (w_unknown_url_msg w url).

(** [response.read()] *)
Definition read (r : Response) : M bytes := lift_result (resp_read r).

(** [content.decode('utf-8')] *)
Definition decode (b : bytes) : M str :=
  match decode_utf8 b with
  | Some s => ret s
  | None => raise UnicodeDecodeError (w_decode_msg w b)
  end.

(** [response.headers.get_content_type()] of [email.message]: the header
    value up to the first semicolon, stripped and lower-cased when it has
    exactly one slash; [text/plain] otherwise. *)
Definition get_content_type (r : Response) : str :=
  match resp_content_type r with
  | None => py "text/plain"
  | Some value =>
      let ctype := str_lower (strip (before_first 59 value)) in
      if Nat.eqb (count_char chr_slash ctype) 1 then ctype else py "text/plain"
  end.

(** [path.is_dir()] *)
Definition is_dir (p : Path) : M bool :=
  fun st => (Ok (w_is_dir w (st_trace st) p), emit (EIsDir p) st).

(** [path.mkdir(parents=True, exist_ok=True)] *)
Definition mkdir (p : Path) : M unit :=
  fun st => (match w_mkdir w (st_trace st) p with Some e => Raise e | None => Ok tt end,
             emit (EMkdir p) st).

(** [path.open(mode)] *)
Definition open_file (p : Path) (binary : bool) : M unit :=
  fun st => (match w_open w (st_trace st) p binary with Some e => Raise e | None => Ok tt end,
             emit (EOpen p binary) st).

(** [file.write(data)] on a file opened in the given mode: a binary file
    takes [bytes] and a text file takes [str]. *)
Definition write_file (p : Path) (binary : bool) (data : Content) : M unit :=
  match binary, data with
  | true, CStr _ => raise TypeError (py "a bytes-like object is required, not 'str'")
  | false, CBytes _ => raise TypeError (py "write() argument must be str, not bytes")
  | _, _ =>
      fun st => (match w_write w (st_trace st) p data with Some e => Raise e | None => Ok tt end,
                 emit (EWrite p data) st)
  end.

(** [p.with_suffix(suffix)] *)
Definition with_suffix (p : Path) (suffix : str) : M Path :=
  if str_eqb (Path_name p) []
  then raise ValueError (py "PosixPath('" ++ Path_str p ++ py "') has an empty name")
  else ret (Path_replace_suffix p suffix).

(** [sorted(X)] for a set of [str] *)
Definition sorted (X : gset str) : list str := merge_sort str_le (w_iter w X).

(** [datetime.strftime] with the format of the source; the fields of a
    [datetime] are at most 9999 for the year and two digits for the rest. *)
Definition digit (n : nat) : N := (48 + N.of_nat (n mod 10))%N.
Definition pad2 (n : nat) : str := [digit (n / 10); digit n].
Definition pad4 (n : nat) : str := [digit (n / 1000); digit (n / 100); digit (n / 10); digit n].

Definition strftime (d : datetime) : str :=
  pad4 (year d) ++ pad2 (month d) ++ pad2 (day d) ++ [95%N]
  ++ pad2 (hour d) ++ pad2 (minute d) ++ pad2 (second d).

(** ** The functions of the module *)

(** [generate_timestamp], under [lru_cache]: the first call reads the clock
    and fills the memo table, every later call returns the entry. *)
Definition generate_timestamp : M str :=
  fun st => match st_timestamp st with
            | Some ts => (Ok ts, st)
            | None =>
                let ts := strftime (w_now w (st_trace st)) in
                (Ok ts, {| st_trace := st_trace st ++ [ENow]; st_timestamp := Some ts |})
            end.

Definition generate_filename (content_type : str) : M str :=
  timestamp <- generate_timestamp ;;
  ret (if str_eqb content_type (ContentType_value JPEG)
       then py "image_" ++ timestamp ++ py ".jpg"
       else py "content_" ++ timestamp ++ py ".txt").

Definition save_content (content : Content) (path : str) (is_binary : bool) : M unit :=
  try_except
    (let path := Path_of (strip_quotes path) in
     d <- is_dir path ;;
     path <- (if d : bool then
                let content_type := ContentType_value (if is_binary then JPEG else HTML) in
                name <- generate_filename content_type ;;
                ret (Path_join path name)
              else ret path) ;;
     path <- (if str_eqb (Path_suffix path) [] then
                with_suffix path (if is_binary then py ".bin" else py ".txt")
              else ret path) ;;
     if is_binary && negb (bool_decide (Path_suffix path ∈ VALID_BINARY_EXT)) then
       raise URLFetcherError
         (py "Invalid binary extension: " ++ Path_suffix path ++ py ". Expected: "
          ++ str_join (py ", ") (w_iter w VALID_BINARY_EXT))
     else if negb is_binary && negb (bool_decide (Path_suffix path ∈ VALID_TEXT_EXT)) then
       raise URLFetcherError
         (py "Invalid text extension: " ++ Path_suffix path ++ py ". Expected: "
          ++ str_join (py ", ") (w_iter w VALID_TEXT_EXT))
     else
       mkdir (Path_parent path) ;;;
       open_file path is_binary ;;;
       write_file path is_binary content ;;;
       print (py "Saving succeeded to: " ++ Path_str path))
    is_OSError
    (fun e => raise URLFetcherError (py "File operation failed: " ++ exc_msg e)).

Definition load_url (url : str) (binary : bool) : M Content :=
  try_except
    (response <- urlopen url [] ;;
     content <- read response ;;
     if binary then ret (CBytes content)
     else text <- decode content ;; ret (CStr text))
    is_URLError
    (fun e => raise URLFetcherError (py "Failed to load URL: " ++ exc_msg e)).

(** The URL [check_url] goes on with: [http://] is put in front unless the
    text starts with [http://] or [https://]. *)
Definition with_default_scheme (url : str) : str :=
  (if startswith (py "http://") url || startswith (py "https://") url
   then [] else py "http://") ++ url.

Definition check_url (url : str) : M (bool * option str) :=
  try_except
    (let url := with_default_scheme url in
     response <- urlopen url [(py "User-Agent", USER_AGENT)] ;;
     let content_type := get_content_type response in
     if str_eqb content_type (ContentType_value JPEG)
     then ret (true, Some (ContentType_value JPEG))
     else
       body <- read response ;;
       text <- decode body ;;
       if negb (str_eqb text [])
       then ret (true, Some (ContentType_value HTML))
       else ret (false, None))
    is_Exception
    (fun e => raise URLFetcherError (py "URL validation failed: " ++ exc_msg e)).

Definition save_dangerous_words (dangerous_words : gset str) (path : str) : M unit :=
  try_except
    (let path := Path_of (strip_quotes path) in
     d <- is_dir path ;;
     path <- (if d : bool then
                timestamp <- generate_timestamp ;;
                ret (Path_join path (py "dangerous_words_" ++ timestamp ++ py ".txt"))
              else if str_eqb (Path_suffix path) [] then with_suffix path (py ".txt")
              else ret path) ;;
     mkdir (Path_parent path) ;;;
     let text :=
       if bool_decide (dangerous_words = ∅) then py "No dangerous words found"
       else str_join [chr_nl] (sorted dangerous_words) in
     open_file path false ;;;
     write_file path false (CStr text) ;;;
     print (py "Dangerous words saved to: " ++ Path_str path))
    is_OSError
    (fun e => raise URLFetcherError (py "File operation failed: " ++ exc_msg e)).

Definition main : M unit :=
  try_except
    (line <- input (py "Give me a valid URL to download? ") ;;
     let url := strip line in
     checked <- check_url url ;;
     match checked.1, checked.2 with
     | true, Some content_type =>
         content <- load_url url (str_eqb content_type (ContentType_value JPEG)) ;;
         line <- input (py "Give me a valid path to save the contents? ") ;;
         let path := strip_quotes line in
         if str_eqb content_type (ContentType_value HTML) then
           match content with
           | CStr content =>
               let text_content := HTML_CLEANER_sub content in
               let dangerous_words := count_words text_content in
               (if bool_decide (dangerous_words = ∅) then ret tt
                else print (py "Dangerous words found: "
                            ++ str_join (py ", ") (sorted dangerous_words))) ;;;
               save_dangerous_words dangerous_words path
           | CBytes _ =>
               raise TypeError (py "cannot use a string pattern on a bytes-like object")
           end
         else
           save_content content
             (if endswith (py ".jpg") path then path else path ++ py ".jpg") true
     | _, _ => raise URLFetcherError (py "Invalid URL or unsupported content type")
     end)
    (fun c => bool_decide (c = URLFetcherError) || bool_decide (c = KeyboardInterrupt))
    (fun e => if bool_decide (exc_class e = URLFetcherError)
              then print (py "Error: " ++ exc_msg e)
              else print ([chr_nl] ++ py "Operation cancelled by user")).

(** ** Vocabulary of the properties *)

(** Every character of [tok] is a word character. *)
Definition all_word (tok : str) : Prop := Forall (fun c => is_word c = true) tok.

(** The character before a match: the last one of [pre], or [prev] when
    the match starts the text. *)
Definition char_before (prev : option N) (pre : str) : option N :=
  match list.last pre with Some c => Some c | None => prev end.

(** [tok] is a run of word characters of [s], between [pre] and [post],
    with no word character on either side. *)
Definition word_at (prev : option N) (s pre tok post : str) : Prop :=
  s = pre ++ tok ++ post /\ tok <> [] /\ all_word tok /\
  is_word_opt (char_before prev pre) = false /\
  is_word_opt (list.head post) = false.

(** The denylist word [word] stands in [text] as a whole word, whatever the
    case of its letters: some run of word characters of [text], with no
    word character on either side, lower-cases to [word]. *)
Definition occurs_as_whole_word (word text : str) : Prop :=
  exists pre tok post,
    text = pre ++ tok ++ post /\ tok <> [] /\ all_word tok /\
    is_word_opt (list.last pre) = false /\
    is_word_opt (list.head post) = false /\
    str_lower tok = word.

(** A text without [<]. *)
Definition tag_free (s : str) : bool := forallb (fun c => negb (c =? chr_lt)%N) s.

(** What stands between the brackets of a [<...>] span the pattern
    matches: one character other than [<], then characters other than [<]
    and [>]. *)
Definition tag_body (t : str) : bool :=
  match t with
  | [] => false
  | c :: t' =>
      negb (c =? chr_lt)%N
      && forallb (fun d => negb (d =? chr_lt)%N && negb (d =? chr_gt)%N) t'
  end.

(** The span [<t>]. *)
Definition tag (t : str) : str := chr_lt :: t ++ [chr_gt].

(** Markup: [a1 <t1> a2 <t2> ... an <tn> rest], given as the pairs
    [(ai, ti)] and [rest]. *)
Fixpoint markup (pieces : list (str * str)) (rest : str) : str :=
  match pieces with
  | [] => rest
  | (a, t) :: pieces => a ++ tag t ++ markup pieces rest
  end.

(** The text of a markup: what stands outside its spans. *)
Definition markup_text (pieces : list (str * str)) (rest : str) : str :=
  concat (fst <$> pieces) ++ rest.

(** Every [<] of the markup opens a span: the texts hold none, and the
    spans are ones the pattern matches. *)
Definition well_formed (pieces : list (str * str)) (rest : str) : bool :=
  forallb (fun p => tag_free p.1 && tag_body p.2) pieces && tag_free rest.

(** What [check_url] sends. *)
Definition check_request (url : str) : Event :=
  ERequest (with_default_scheme url) [(py "User-Agent", USER_AGENT)].

(** [st'] comes no earlier than [st] in a run: an entry of the memo table
    is never dropped or replaced. *)
Definition later (st st' : State) : Prop :=
  forall ts, st_timestamp st = Some ts -> st_timestamp st' = Some ts.

(** The memo table holds nothing but formatted clock readings. *)
Definition State_wf (st : State) : Prop :=
  forall ts, st_timestamp st = Some ts -> exists d, ts = strftime d.

(** A computation that keeps the memo table: no entry is lost, and what it
    adds is a formatted clock reading. *)
Definition steady {A} (m : M A) : Prop :=
  forall st, later st (m st).2 /\ (State_wf st -> State_wf (m st).2).

(** The name [generate_filename] builds from the timestamp [ts]. *)
Definition filename_for (content_type ts : str) : str :=
  if str_eqb content_type (ContentType_value JPEG)
  then py "image_" ++ ts ++ py ".jpg"
  else py "content_" ++ ts ++ py ".txt".

(** The file system accepts every [mkdir], [open] and [write]. *)
Definition os_succeeds : Prop :=
  (forall tr p, w_mkdir w tr p = None) /\
  (forall tr p b, w_open w tr p b = None) /\
  (forall tr p c, w_write w tr p c = None).

(** What [generate_timestamp] returns in state [st] when the events so far
    are [tr]. *)
Definition timestamp_at (st : State) (tr : list Event) : str :=
  match st_timestamp st with
  | Some ts => ts
  | None => strftime (w_now w tr)
  end.

(** The file [save_dangerous_words] writes to. *)
Definition words_target (st : State) (path : str) : Path :=
  let p := Path_of (strip_quotes path) in
  if w_is_dir w (st_trace st) p then
    Path_join p (py "dangerous_words_" ++ timestamp_at st (st_trace st ++ [EIsDir p])
                 ++ py ".txt")
  else if str_eqb (Path_suffix p) [] then Path_replace_suffix p (py ".txt")
  else p.

(** A non-empty text without a slash: the start of a name that [Path]
    keeps as one component. *)
Definition plain_prefix (s : str) : Prop :=
  s <> [] /\ Forall (fun c => c <> chr_slash) s.

(** The state after a call of [generate_timestamp] in [st]. *)
Definition timestamp_taken (st : State) : State :=
  match st_timestamp st with
  | Some _ => st
  | None => {| st_trace := st_trace st ++ [ENow];
               st_timestamp := Some (strftime (w_now w (st_trace st))) |}
  end.

(** What [write] accepts on a file opened in the given mode. *)
Definition content_fits (is_binary : bool) (c : Content) : Prop :=
  match is_binary, c with
  | true, CBytes _ | false, CStr _ => True
  | _, _ => False
  end.

(** The name [save_content] gives a file it puts into a directory. *)
Definition generated_name (is_binary : bool) (ts : str) : str :=
  filename_for (ContentType_value (if is_binary then JPEG else HTML)) ts.

(** * Properties *)

(** ** The scanner *)

Lemma findall_eq prev s :
  findall prev s =
  match WORD_PATTERN_match prev s with
  | Some (tok, rest) => tok :: findall (list.last tok) rest
  | None => match s with [] => [] | c :: s' => findall (Some c) s' end
  end.
Proof.
  funelim (findall prev s); clear Heqcall;
    match goal with e : WORD_PATTERN_match _ _ = _ |- _ => by rewrite e end.
Qed.

Lemma span_spec f s a b :
  span f s = (a, b) ->
  s = a ++ b /\ Forall (fun c => f c = true) a /\
  match b with [] => True | c :: _ => f c = false end.
Proof.
  revert a b. induction s as [|c s IH]; intros a b; simpl.
  - intros [= <- <-]. by repeat constructor.
  - destruct (f c) eqn:Hc.
    + destruct (span f s) as [a' b']. intros [= <- <-].
      destruct (IH _ _ eq_refl) as (-> & Ha & Hb). repeat split; [by constructor|done].
    + intros [= <- <-]. by repeat constructor.
Qed.

Lemma span_unique f a b :
  Forall (fun c => f c = true) a ->
  match b with [] => True | c :: _ => f c = false end ->
  span f (a ++ b) = (a, b).
Proof.
  intros Ha Hb. induction Ha as [|c a Hc Ha IH]; simpl.
  - destruct b as [|c b]; [done|]. simpl. by rewrite Hb.
  - by rewrite Hc, IH.
Qed.

Lemma WORD_PATTERN_match_Some prev s tok rest :
  WORD_PATTERN_match prev s = Some (tok, rest) ->
  word_at prev s [] tok rest /\ is_word_opt (list.last tok) = true.
Proof.
  unfold WORD_PATTERN_match, word_boundary.
  destruct (xorb _ _) eqn:Hx; [|done].
  destruct (span is_word s) as [a b] eqn:Hs.
  destruct (span_spec _ _ _ _ Hs) as (-> & Ha & Hb).
  destruct a as [|c a]; [done|]. intros [= <- <-].
  assert (is_word c = true) as Hc by by inversion Ha.
  simpl in Hx. rewrite Hc in Hx.
  repeat split; try done.
  - unfold char_before. simpl. by destruct (is_word_opt prev).
  - by destruct b.
  - destruct (list.last (c :: a)) as [d|] eqn:Hl.
    2:{ rewrite last_cons in Hl. by destruct (list.last a). }
    apply last_Some_elem_of in Hl. simpl.
    rewrite list.Forall_forall in Ha. by apply Ha.
Qed.

Lemma WORD_PATTERN_match_None prev s :
  WORD_PATTERN_match prev s = None ->
  is_word_opt prev = true \/ is_word_opt (list.head s) = false.
Proof.
  unfold WORD_PATTERN_match, word_boundary.
  destruct (is_word_opt prev); [by left|]. simpl.
  destruct s as [|c s]; [by right|]. simpl.
  destruct (is_word c) eqn:Hc; [|by right].
  destruct (span is_word s); done.
Qed.

Lemma all_word_prefix a b c d e :
  a ++ b = c ++ d :: e -> all_word a -> is_word d = false ->
  exists a', c = a ++ a'.
Proof.
  revert c. induction a as [|x a IH]; intros c Heq Ha Hd; [by eexists|].
  destruct c as [|y c]; simpl in *.
  - injection Heq as -> _. inversion Ha; congruence.
  - injection Heq as -> Heq. inversion Ha; subst.
    destruct (IH _ Heq) as [a' ->]; [done..|]. by eexists.
Qed.

Lemma findall_spec prev s tok :
  tok ∈ findall prev s <-> exists pre post, word_at prev s pre tok post.
Proof.
  remember (length s) as n eqn:Hn. revert prev s Hn.
  induction (lt_wf n) as [n _ IH]. intros prev s ->.
  rewrite findall_eq.
  destruct (WORD_PATTERN_match prev s) as [[tok0 rest]|] eqn:Hm.
  - pose proof (WORD_PATTERN_match_length _ _ _ _ Hm) as Hlen.
    destruct (WORD_PATTERN_match_Some _ _ _ _ Hm) as [(Hs & Hne & Haw & Hb & Ha) Hlast].
    simpl in Hs. rewrite elem_of_cons, (IH _ Hlen _ _ eq_refl). split.
    + intros [->|(pre & post & -> & Hne' & Haw' & Hb' & Ha')].
      * by exists [], rest.
      * exists (tok0 ++ pre), post. repeat split; try done.
        { by rewrite Hs, <- app_assoc. }
        unfold char_before in *. rewrite last_app.
        destruct (list.last pre); [done|]. by rewrite Hlast in Hb'.
    + intros (pre & post & Hs' & Hne' & Haw' & Hb' & Ha').
      destruct pre as [|c pre _] using rev_ind.
      * left. simpl in Hs'.
        assert (span is_word s = (tok, post)) as Hsp.
        { rewrite Hs'. apply span_unique; [done|]. by destruct post. }
        assert (span is_word s = (tok0, rest)) as Hsp0.
        { rewrite Hs. apply span_unique; [done|]. by destruct rest. }
        congruence.
      * right. unfold char_before in Hb'. rewrite last_snoc in Hb'. simpl in Hb'.
        rewrite Hs, <- app_assoc in Hs'. simpl in Hs'.
        destruct (all_word_prefix _ _ _ _ _ Hs' Haw Hb') as [pre' ->].
        rewrite <- !app_assoc in Hs'. apply app_inv_head in Hs'.
        exists (pre' ++ [c]), post. repeat split; try done.
        { by rewrite <- app_assoc. }
        unfold char_before. by rewrite last_snoc.
  - destruct s as [|c s].
    + split; [by intros ?%elem_of_nil|].
      intros (pre & post & Hs & Hne & _). destruct pre, tok; done.
    + rewrite (IH (length s) ltac:(simpl; lia) _ _ eq_refl). split.
      * intros (pre & post & -> & Hne & Haw & Hb & Ha).
        exists (c :: pre), post. repeat split; try done.
        unfold char_before in *. rewrite last_cons. by destruct (list.last pre).
      * intros (pre & post & Hs & Hne & Haw & Hb & Ha).
        destruct pre as [|c' pre].
        { exfalso. destruct tok as [|d tok]; [done|]. simpl in Hs. injection Hs as -> ->.
          inversion Haw; subst. unfold char_before in Hb. simpl in Hb.
          destruct (WORD_PATTERN_match_None _ _ Hm) as [?|?]; simpl in *; congruence. }
        simpl in Hs. injection Hs as -> ->.
        exists pre, post. repeat split; try done.
        unfold char_before in *. rewrite last_cons in Hb. by destruct (list.last pre).
Qed.

Lemma char_before_None pre : char_before None pre = list.last pre.
Proof. unfold char_before. by destruct (list.last pre). Qed.

Lemma WORD_PATTERN_findall_spec text tok :
  tok ∈ WORD_PATTERN_findall text <->
  exists pre post,
    text = pre ++ tok ++ post /\ tok <> [] /\ all_word tok /\
    is_word_opt (list.last pre) = false /\ is_word_opt (list.head post) = false.
Proof.
  unfold WORD_PATTERN_findall. rewrite findall_spec. unfold word_at.
  by setoid_rewrite char_before_None.
Qed.

(** C2: [count_words text] is exactly the set of denylist words that stand
    in [text] as whole words up to case, each in its lower-case form; the
    text [bombastic] holds none of them, so [bomb] is not reported for it. *)
Theorem count_words_whole_words :
  (forall text word,
     word ∈ count_words text <->
     word ∈ DANGEROUS_WORDS /\ occurs_as_whole_word word text) /\
  (py "bomb" ∉ count_words (py "bombastic")) /\
  count_words (py "bombastic") = ∅.
Proof.
  split.
  - intros text word. unfold count_words, occurs_as_whole_word.
    rewrite elem_of_intersection, elem_of_list_to_set, list_elem_of_fmap.
    setoid_rewrite WORD_PATTERN_findall_spec. split.
    + intros [(tok & -> & pre & post & H1 & H2 & H3 & H4 & H5) Hd]. split; [done|].
      by exists pre, tok, post.
    + intros [Hd (pre & tok & post & H1 & H2 & H3 & H4 & H5 & H6)]. split; [|done].
      exists tok. split; [done|]. by exists pre, post.
  - assert (count_words (py "bombastic") = ∅) as -> by (vm_compute; reflexivity).
    split; [set_solver|done].
Qed.

(** ** The cleaner *)

Lemma HTML_CLEANER_sub_eq s :
  HTML_CLEANER_sub s =
  match HTML_CLEANER_match s with
  | Some r => HTML_CLEANER_sub r
  | None => match s with [] => [] | c :: s' => c :: HTML_CLEANER_sub s' end
  end.
Proof.
  funelim (HTML_CLEANER_sub s); clear Heqcall;
    first [ match goal with e : HTML_CLEANER_match _ = _ |- _ => by rewrite e end
          | match goal with e : _ = None |- _ => by rewrite e end
          | done ].
Qed.

(** A text without [<] is left as it is. *)
Lemma HTML_CLEANER_sub_plain s :
  Forall (fun c => c <> chr_lt) s -> HTML_CLEANER_sub s = s.
Proof.
  induction 1 as [|c s Hc Hs IH]; rewrite HTML_CLEANER_sub_eq; [done|].
  assert (HTML_CLEANER_match (c :: s) = None) as ->.
  { simpl. destruct s; [done|]. by destruct (N.eqb_spec c chr_lt). }
  by rewrite IH.
Qed.

Lemma lazy_close_tag t s :
  Forall (fun c => c <> chr_lt /\ c <> chr_gt) t ->
  lazy_close (t ++ chr_gt :: s) = Some s.
Proof.
  induction 1 as [|c t [Hc1 Hc2] Ht IH]; simpl; [done|].
  destruct (N.eqb_spec c chr_gt); [done|]. by destruct (N.eqb_spec c chr_lt).
Qed.

(** A tag [<t>] with a non-empty [t] free of [<] and [>] is dropped. *)
Lemma HTML_CLEANER_sub_tag t s :
  t <> [] -> Forall (fun c => c <> chr_lt /\ c <> chr_gt) t ->
  HTML_CLEANER_sub (chr_lt :: t ++ chr_gt :: s) = HTML_CLEANER_sub s.
Proof.
  intros Hne Ht. rewrite HTML_CLEANER_sub_eq.
  destruct t as [|c t]; [done|]. inversion Ht as [|? ? [Hc1 Hc2] Ht']; subst.
  simpl. destruct (N.eqb_spec c chr_lt); [done|]. simpl.
  by rewrite lazy_close_tag.
Qed.

(** The pattern asks for a character between the brackets: [<>] stays. *)
Example HTML_CLEANER_sub_empty_tag : HTML_CLEANER_sub (py "<>kill") = py "<>kill".
Proof. reflexivity. Qed.

Lemma forallb_Forall (f : N -> bool) (s : str) :
  forallb f s = true <-> Forall (fun c => f c = true) s.
Proof.
  induction s as [|c s IH]; simpl; [by split; [constructor|]|].
  rewrite andb_true_iff, IH, list.Forall_cons. done.
Qed.

Lemma tag_free_spec s : tag_free s = true <-> Forall (fun c => c <> chr_lt) s.
Proof.
  unfold tag_free. rewrite forallb_Forall.
  split; apply Forall_impl; intros c; by destruct (N.eqb_spec c chr_lt).
Qed.

Lemma tag_body_spec t :
  tag_body t = true <->
  exists c t', t = c :: t' /\ c <> chr_lt /\
               Forall (fun d => d <> chr_lt /\ d <> chr_gt) t'.
Proof.
  destruct t as [|c t]; simpl.
  { split; [done|by intros (? & ? & ? & _)]. }
  rewrite andb_true_iff, forallb_Forall. split.
  - intros [Hc Ht]. exists c, t. split; [done|]. split.
    + by destruct (N.eqb_spec c chr_lt).
    + revert Ht. apply Forall_impl. intros d.
      by destruct (N.eqb_spec d chr_lt), (N.eqb_spec d chr_gt).
  - intros (c' & t' & [= <- <-] & Hc & Ht). split.
    + by destruct (N.eqb_spec c chr_lt).
    + revert Ht. apply Forall_impl. intros d [? ?].
      by destruct (N.eqb_spec d chr_lt), (N.eqb_spec d chr_gt).
Qed.

Lemma lazy_close_Some s r :
  lazy_close s = Some r ->
  exists t, s = t ++ chr_gt :: r /\ Forall (fun d => d <> chr_lt /\ d <> chr_gt) t.
Proof.
  induction s as [|c s IH]; simpl; [done|].
  destruct (N.eqb_spec c chr_gt) as [->|Hgt].
  { intros [= <-]. by exists []. }
  destruct (N.eqb_spec c chr_lt) as [|Hlt]; [done|].
  intros (t & -> & Ht)%IH. exists (c :: t). split; [done|]. by constructor.
Qed.

(** The pattern matches at the head of a text exactly when a span [<t>]
    stands there, and the match is that span. *)
Lemma HTML_CLEANER_match_spec s r :
  HTML_CLEANER_match s = Some r <-> exists t, tag_body t = true /\ s = tag t ++ r.
Proof.
  split.
  - destruct s as [|c0 [|c1 s]]; simpl; try done.
    destruct (N.eqb_spec c0 chr_lt) as [->|]; [|done].
    destruct (N.eqb_spec c1 chr_lt) as [|Hc1]; [done|]. simpl.
    intros (t & -> & Ht)%lazy_close_Some. exists (c1 :: t). split.
    + apply tag_body_spec. by exists c1, t.
    + unfold tag. simpl. by rewrite <- app_assoc.
  - intros (t & (c & t' & -> & Hc & Ht)%tag_body_spec & ->).
    unfold tag. simpl. destruct (N.eqb_spec c chr_lt); [done|]. simpl.
    rewrite <- app_assoc. by apply lazy_close_tag.
Qed.

Lemma HTML_CLEANER_sub_prefix a s :
  tag_free a = true -> HTML_CLEANER_sub (a ++ s) = a ++ HTML_CLEANER_sub s.
Proof.
  intros Ha%tag_free_spec. induction Ha as [|c a Hc Ha IH]; [done|]. simpl.
  rewrite HTML_CLEANER_sub_eq.
  assert (HTML_CLEANER_match (c :: a ++ s) = None) as ->.
  { simpl. destruct (a ++ s); [done|]. by destruct (N.eqb_spec c chr_lt). }
  by rewrite IH.
Qed.

Lemma HTML_CLEANER_sub_span t r :
  tag_body t = true -> HTML_CLEANER_sub (tag t ++ r) = HTML_CLEANER_sub r.
Proof.
  intros Ht. rewrite HTML_CLEANER_sub_eq.
  assert (HTML_CLEANER_match (tag t ++ r) = Some r) as ->; [|done].
  apply HTML_CLEANER_match_spec. by exists t.
Qed.

Lemma HTML_CLEANER_sub_markup pieces rest :
  well_formed pieces rest = true ->
  HTML_CLEANER_sub (markup pieces rest) = markup_text pieces rest.
Proof.
  unfold well_formed, markup_text. rewrite andb_true_iff. intros [Hp Hr].
  induction pieces as [|[a t] pieces IH].
  - simpl. by apply HTML_CLEANER_sub_plain, tag_free_spec.
  - simpl in Hp. apply andb_true_iff in Hp as [[Ha Ht]%andb_true_iff Hp].
    change (markup ((a, t) :: pieces) rest) with (a ++ tag t ++ markup pieces rest).
    rewrite HTML_CLEANER_sub_prefix, HTML_CLEANER_sub_span, IH by done.
    simpl. by rewrite <- app_assoc.
Qed.

Lemma markup_text_tag_free pieces rest :
  well_formed pieces rest = true -> tag_free (markup_text pieces rest) = true.
Proof.
  unfold well_formed, markup_text. rewrite andb_true_iff. intros [Hp Hr].
  induction pieces as [|[a t] pieces IH]; simpl; [done|].
  simpl in Hp. apply andb_true_iff in Hp as [[Ha Ht]%andb_true_iff Hp].
  rewrite <- app_assoc. unfold tag_free in *. rewrite forallb_app, Ha. simpl.
  by apply IH.
Qed.

(** C8: tag stripping removes every [<...>] span before the scan.  For any
    text, a span [<t>] the pattern matches at the point the scan has
    reached is dropped whole and the scan goes on after it, and a character
    where no such span starts is kept.  So for markup in which every [<]
    opens a span, what is left is the text outside the spans, joined, with
    no [<] in it, and that is what the scanner sees.  In particular,
    cleaning [<p>kill</p>] gives [kill], and scanning it gives the set that
    holds [kill] and nothing else. *)
Theorem clean_then_scan_strips_tags :
  (forall t r, tag_body t = true ->
     HTML_CLEANER_sub (tag t ++ r) = HTML_CLEANER_sub r) /\
  (forall c s, (forall t r, tag_body t = true -> c :: s <> tag t ++ r) ->
     HTML_CLEANER_sub (c :: s) = c :: HTML_CLEANER_sub s) /\
  (forall pieces rest, well_formed pieces rest = true ->
     HTML_CLEANER_sub (markup pieces rest) = markup_text pieces rest /\
     tag_free (HTML_CLEANER_sub (markup pieces rest)) = true /\
     count_words (HTML_CLEANER_sub (markup pieces rest))
     = count_words (markup_text pieces rest)) /\
  HTML_CLEANER_sub (py "<p>kill</p>") = py "kill" /\
  count_words (HTML_CLEANER_sub (py "<p>kill</p>")) = {[ py "kill" ]}.
Proof.
  split; [exact HTML_CLEANER_sub_span|]. split.
  { intros c s Hno. rewrite HTML_CLEANER_sub_eq.
    destruct (HTML_CLEANER_match (c :: s)) as [r|] eqn:Hm; [|done].
    apply HTML_CLEANER_match_spec in Hm as (t & Ht & Hs).
    by destruct (Hno t r Ht). }
  split.
  { intros pieces rest Hwf. rewrite (HTML_CLEANER_sub_markup _ _ Hwf).
    split; [done|]. split; [by apply markup_text_tag_free|done]. }
  split; vm_compute; reflexivity.
Qed.

(** ** The fetcher *)

Lemma startswith_spec p a : startswith p a = true <-> exists r, a = p ++ r.
Proof.
  revert a. induction p as [|c p IH]; intros a; simpl.
  - split; [by exists a|done].
  - destruct a as [|d a]; [split; [done|by intros [? ?]]|].
    rewrite andb_true_iff, IH, N.eqb_eq. split.
    + intros [-> [r ->]]. by exists r.
    + intros [r [= -> ->]]. split; [done|by exists r].
Qed.

Lemma lstrip_by_keep f a c b :
  f c = false -> exists a', lstrip_by f (a ++ c :: b) = a' ++ c :: b.
Proof.
  intros Hc. induction a as [|d a IH]; simpl.
  - rewrite Hc. by exists [].
  - destruct (f d); [done|]. by exists (d :: a).
Qed.

(** Stripping leaves a text alone up to the last character it has to keep. *)
Lemma strip_by_keep f c m d r :
  f c = false -> f d = false ->
  exists r', strip_by f (c :: m ++ d :: r) = c :: m ++ d :: r'.
Proof.
  intros Hc Hd. unfold strip_by. simpl lstrip_by at 2. rewrite Hc.
  replace (rev (c :: m ++ d :: r)) with (rev r ++ d :: rev (c :: m)).
  2:{ simpl. rewrite rev_app_distr. simpl. by rewrite <- !app_assoc. }
  destruct (lstrip_by_keep f (rev r) d (rev (c :: m)) Hd) as [a' ->].
  exists (rev a'). rewrite rev_app_distr.
  change (rev (d :: rev (c :: m))) with (rev (rev (c :: m)) ++ [d]).
  rewrite rev_involutive. simpl. by rewrite <- app_assoc.
Qed.

Lemma splittag_cons d s :
  (d =? chr_hash)%N = false -> (splittag (d :: s)).1 = d :: (splittag s).1.
Proof.
  intros Hd. unfold splittag. simpl. destruct (rfind chr_hash s); [done|].
  by rewrite Hd.
Qed.

Lemma splittag_app p r :
  Forall (fun d => (d =? chr_hash)%N = false) p ->
  (splittag (p ++ r)).1 = p ++ (splittag r).1.
Proof.
  induction 1 as [|d p Hd Hp IH]; [done|]. simpl.
  by rewrite splittag_cons, IH.
Qed.

(** What [Request] keeps of a URL that starts with text free of blanks,
    brackets and [#], and not with [U]: that text, at least. *)
Lemma request_url_prefix c m d r :
  py_isspace c = false -> py_isspace d = false ->
  c <> chr_lt -> (85 =? c)%N = false ->
  Forall (fun x => (x =? chr_hash)%N = false) (c :: m ++ [d]) ->
  exists r', (splittag (unwrap (c :: m ++ d :: r))).1 = c :: m ++ d :: r'.
Proof.
  intros Hc Hd Hlt HU Hhash. unfold unwrap, strip.
  destruct (strip_by_keep py_isspace c m d r Hc Hd) as [r1 ->].
  rewrite (bool_decide_eq_false_2 (list.head _ = Some chr_lt)) by (simpl; congruence).
  simpl andb. cbv iota.
  assert (startswith (py "URL:") (c :: m ++ d :: r1) = false) as ->.
  { change (startswith (py "URL:") (c :: m ++ d :: r1))
      with ((85 =? c)%N && startswith (py "RL:") (m ++ d :: r1)).
    by rewrite HU. }
  exists (splittag r1).1.
  replace (c :: m ++ d :: r1) with ((c :: m ++ [d]) ++ r1)
    by (simpl; by rewrite <- app_assoc).
  rewrite splittag_app by done. simpl. by rewrite <- app_assoc.
Qed.

Lemma has_scheme_http r : has_scheme (py "http://" ++ r) = true.
Proof.
  unfold has_scheme.
  destruct (request_url_prefix 104%N (py "ttp:/") chr_slash r) as [r' Hr'];
    [done|done|done|done|by repeat constructor|].
  change (py "http://" ++ r) with (104%N :: py "ttp:/" ++ chr_slash :: r).
  by rewrite Hr'.
Qed.

Lemma has_scheme_https r : has_scheme (py "https://" ++ r) = true.
Proof.
  unfold has_scheme.
  destruct (request_url_prefix 104%N (py "ttps:/") chr_slash r) as [r' Hr'];
    [done|done|done|done|by repeat constructor|].
  change (py "https://" ++ r) with (104%N :: py "ttps:/" ++ chr_slash :: r).
  by rewrite Hr'.
Qed.

Lemma has_scheme_with_default url : has_scheme (with_default_scheme url) = true.
Proof.
  unfold with_default_scheme.
  destruct (startswith (py "http://") url) eqn:H1.
  { apply startswith_spec in H1 as [r ->]. apply (has_scheme_http r). }
  destruct (startswith (py "https://") url) eqn:H2.
  { apply startswith_spec in H2 as [r ->]. apply (has_scheme_https r). }
  apply has_scheme_http.
Qed.

Lemma get_content_type_jpeg r :
  resp_content_type r = Some (py "image/jpeg") -> get_content_type r = py "image/jpeg".
Proof. unfold get_content_type. intros ->. reflexivity. Qed.

Lemma check_url_request url st :
  st_trace (check_url url st).2 = st_trace st ++ [check_request url].
Proof.
  unfold check_url, try_except, bind, urlopen. rewrite has_scheme_with_default.
  destruct (w_urlopen _ _ _ _) as [r|e]; simpl.
  - destruct (str_eqb _ _); [done|]. unfold read, lift_result.
    destruct (resp_read r) as [body|e]; simpl.
    + unfold decode. destruct (decode_utf8 body) as [text|]; simpl.
      * by destruct (negb _).
      * done.
    + by destruct (is_Exception _).
  - by destruct (is_Exception _).
Qed.

(** C1, as the code has it: a response whose content type is [image/jpeg]
    is JPEG whatever its body; any other response is HTML when its body
    decodes to a non-empty text, invalid ([(False, None)]) when it decodes
    to the empty text, and makes [check_url] raise [URLFetcherError] when
    it does not decode. *)
Theorem check_url_classifies url st r :
  w_urlopen w (st_trace st) (with_default_scheme url) [(py "User-Agent", USER_AGENT)] = Ok r ->
  let res := (check_url url st).1 in
  (resp_content_type r = Some (py "image/jpeg") \/ get_content_type r = py "image/jpeg" ->
   res = Ok (true, Some (py "image/jpeg"))) /\
  (get_content_type r <> py "image/jpeg" ->
   forall body, resp_read r = Ok body ->
     match decode_utf8 body with
     | Some [] => res = Ok (false, None)
     | Some (_ :: _) => res = Ok (true, Some (py "text/html"))
     | None => res = Raise (Exc URLFetcherError
                              (py "URL validation failed: " ++ w_decode_msg w body))
     end).
Proof.
  intros Hopen res. subst res.
  unfold check_url, try_except, bind, urlopen. rewrite has_scheme_with_default, Hopen.
  simpl. split.
  - intros Hj. assert (get_content_type r = py "image/jpeg") as ->.
    { destruct Hj as [Hj|Hj]; [by apply get_content_type_jpeg|done]. }
    reflexivity.
  - intros Hn body Hbody.
    destruct (str_eqb (get_content_type r) _) eqn:E.
    { by apply bool_decide_eq_true in E. }
    unfold read, lift_result. rewrite Hbody. simpl. unfold decode.
    destruct (decode_utf8 body) as [[|c text]|]; reflexivity.
Qed.

(** ** The loader *)

Lemma load_url_network_error url binary st e :
  has_scheme url = true ->
  w_urlopen w (st_trace st) url [] = Raise e ->
  is_URLError (exc_class e) = true ->
  (load_url url binary st).1 =
  Raise (Exc URLFetcherError (py "Failed to load URL: " ++ exc_msg e)).
Proof.
  intros Hs Ho He. unfold load_url, try_except, bind, urlopen. rewrite Hs, Ho. simpl.
  by rewrite He.
Qed.

Lemma load_url_decode_error url st r body :
  has_scheme url = true ->
  w_urlopen w (st_trace st) url [] = Ok r ->
  resp_read r = Ok body ->
  decode_utf8 body = None ->
  (load_url url false st).1 = Raise (Exc UnicodeDecodeError (w_decode_msg w body)).
Proof.
  intros Hs Ho Hr Hd. unfold load_url, try_except, bind, urlopen. rewrite Hs, Ho. simpl.
  unfold read, lift_result. rewrite Hr. simpl. unfold decode. by rewrite Hd.
Qed.

Lemma load_url_no_scheme url binary st :
  has_scheme url = false ->
  load_url url binary st = (Raise (Exc ValueError (w_unknown_url_msg w url)), st).
Proof. intros Hs. unfold load_url, try_except, bind, urlopen. by rewrite Hs. Qed.

Lemma decode_utf8_empty b : decode_utf8 b = Some [] <-> b = [].
Proof.
  split; [|by intros ->].
  destruct b as [|b0 r0]; [done|]. simpl.
  repeat match goal with
         | |- context [if ?c then _ else _] => destruct c
         | |- context [match ?l with [] => _ | _ :: _ => _ end] => destruct l
         | |- context [_ <$> decode_utf8 ?r] => destruct (decode_utf8 r)
         end; simpl; done.
Qed.

(** ** The memo table of [generate_timestamp] *)

Lemma later_refl st : later st st.
Proof. by intros ts. Qed.

Lemma later_trans st1 st2 st3 : later st1 st2 -> later st2 st3 -> later st1 st3.
Proof. intros H1 H2 ts Hts. by apply H2, H1. Qed.

Lemma initial_state_wf : State_wf initial_state.
Proof. intros ts. discriminate. Qed.

Lemma steady_ret {A} (a : A) : steady (ret a).
Proof. intros st. split; [apply later_refl|done]. Qed.

Lemma steady_raise {A} c msg : steady (raise (A:=A) c msg).
Proof. intros st. split; [apply later_refl|done]. Qed.

Lemma steady_lift_result {A} (r : result A) : steady (lift_result r).
Proof. intros st. split; [apply later_refl|done]. Qed.

Lemma steady_emit {A} (f : State -> result A) e :
  steady (fun st => (f st, emit e st)).
Proof. intros st. split; [by intros ts|done]. Qed.

Lemma steady_bind {A B} (m : M A) (k : A -> M B) :
  steady m -> (forall a, steady (k a)) -> steady (bind m k).
Proof.
  intros Hm Hk st. unfold bind. destruct (Hm st) as [H1 H2].
  destruct (m st) as [[a|e] st1]; simpl in *; [|done].
  destruct (Hk a st1) as [H3 H4]. split; [by eapply later_trans|auto].
Qed.

Lemma steady_try_except {A} (body : M A) catch handler :
  steady body -> (forall e, steady (handler e)) -> steady (try_except body catch handler).
Proof.
  intros Hm Hk st. unfold try_except. destruct (Hm st) as [H1 H2].
  destruct (body st) as [[a|e] st1]; simpl in *; [done|].
  destruct (catch _); [|done].
  destruct (Hk e st1) as [H3 H4]. split; [by eapply later_trans|auto].
Qed.

Lemma steady_generate_timestamp : steady generate_timestamp.
Proof.
  intros st. unfold generate_timestamp.
  destruct (st_timestamp st) as [ts|] eqn:Hts; simpl.
  - split; [apply later_refl|done].
  - split; [intros ts; congruence|].
    intros _ ts [= <-]. by eexists.
Qed.

Lemma steady_urlopen url headers : steady (urlopen url headers).
Proof.
  unfold urlopen. destruct (has_scheme url); [apply steady_emit|apply steady_raise].
Qed.

Lemma steady_decode b : steady (decode b).
Proof. unfold decode. destruct (decode_utf8 b); [apply steady_ret|apply steady_raise]. Qed.

Lemma steady_write_file p binary data : steady (write_file p binary data).
Proof.
  destruct binary, data; simpl; first [apply steady_raise|apply steady_emit].
Qed.

Lemma steady_with_suffix p suffix : steady (with_suffix p suffix).
Proof. unfold with_suffix. destruct (str_eqb _ _); [apply steady_raise|apply steady_ret]. Qed.

Ltac steady_step :=
  first
    [ apply steady_bind; [|intros ?]
    | apply steady_try_except; [|intros ?]
    | apply steady_ret | apply steady_raise | apply steady_lift_result
    | apply steady_generate_timestamp | apply steady_urlopen | apply steady_decode
    | apply steady_write_file | apply steady_with_suffix
    | apply (steady_emit (A:=unit)) | apply (steady_emit (A:=bool))
    | apply (steady_emit (A:=str))
    | match goal with
      | |- steady (if ?b then _ else _) => destruct b
      | |- steady (match ?x with _ => _ end) => destruct x
      end ].

Lemma steady_generate_filename content_type : steady (generate_filename content_type).
Proof. unfold generate_filename. repeat steady_step. Qed.

Lemma steady_save_content content path is_binary :
  steady (save_content content path is_binary).
Proof.
  unfold save_content, is_dir, mkdir, open_file, print.
  repeat first [apply steady_generate_filename | steady_step].
Qed.

Lemma steady_load_url url binary : steady (load_url url binary).
Proof. unfold load_url, read. repeat steady_step. Qed.

Lemma steady_check_url url : steady (check_url url).
Proof. unfold check_url, read. repeat steady_step. Qed.

Lemma steady_save_dangerous_words X path : steady (save_dangerous_words X path).
Proof.
  unfold save_dangerous_words, is_dir, mkdir, open_file, print. repeat steady_step.
Qed.

Lemma steady_main : steady main.
Proof.
  unfold main, input, print.
  repeat first [apply steady_check_url | apply steady_load_url
               | apply steady_save_content | apply steady_save_dangerous_words
               | steady_step].
Qed.

(** C9: once [generate_timestamp] has been called, every later call in the
    run returns the string of that first call, whatever the clock says by
    then, and so every generated file name carries that one timestamp. *)
Theorem generate_timestamp_memoised st st2 :
  later (generate_timestamp st).2 st2 ->
  exists ts,
    (generate_timestamp st).1 = Ok ts /\
    generate_timestamp st2 = (Ok ts, st2) /\
    forall content_type,
      generate_filename content_type st2 = (Ok (filename_for content_type ts), st2).
Proof.
  intros Hl. unfold generate_timestamp in *.
  assert (exists ts, (match st_timestamp st with
                      | Some ts => (Ok ts, st)
                      | None => (Ok (strftime (w_now w (st_trace st))),
                                 {| st_trace := st_trace st ++ [ENow];
                                    st_timestamp := Some (strftime (w_now w (st_trace st))) |})
                      end).1 = Ok ts /\ st_timestamp st2 = Some ts) as (ts & H1 & H2).
  { destruct (st_timestamp st) as [ts|] eqn:Hts; simpl in *.
    - exists ts. split; [done|]. by apply Hl.
    - eexists. split; [done|]. by apply Hl. }
  exists ts. split; [done|]. split.
  - by rewrite H2.
  - intros content_type. unfold generate_filename, bind, generate_timestamp.
    by rewrite H2.
Qed.

(** ** Order on strings and [sorted] *)

Lemma str_leb_total a b : str_leb a b = true \/ str_leb b a = true.
Proof.
  revert b. induction a as [|x a IH]; intros [|y b]; simpl; auto.
  destruct (N.ltb_spec x y), (N.ltb_spec y x); auto; try lia.
  assert (x = y) as -> by lia. rewrite N.eqb_refl. apply IH.
Qed.

Lemma str_leb_trans a b c : str_leb a b = true -> str_leb b c = true -> str_leb a c = true.
Proof.
  revert b c. induction a as [|x a IH]; intros [|y b] [|z c]; simpl; auto; try done.
  destruct (N.ltb_spec x y), (N.ltb_spec y z), (N.ltb_spec x z); auto; try lia;
    destruct (N.eqb_spec x y), (N.eqb_spec y z), (N.eqb_spec x z);
    try done; try lia; eauto.
Qed.

Lemma str_leb_antisym a b : str_leb a b = true -> str_leb b a = true -> a = b.
Proof.
  revert b. induction a as [|x a IH]; intros [|y b]; simpl; auto; try done.
  destruct (N.ltb_spec x y), (N.ltb_spec y x); try lia; try done.
  - destruct (N.eqb_spec y x); [lia|done].
  - destruct (N.eqb_spec x y); [lia|done].
  - destruct (N.eqb_spec x y), (N.eqb_spec y x); try done. subst.
    intros H1 H2. f_equal. by apply IH.
Qed.

#[local] Instance str_le_total : Total str_le.
Proof. intros a b. apply str_leb_total. Qed.

#[local] Instance str_le_trans : Transitive str_le.
Proof. intros a b c. apply str_leb_trans. Qed.

#[local] Instance str_le_antisym : AntiSymm (=) str_le.
Proof. intros a b. apply str_leb_antisym. Qed.

Lemma sorted_spec X :
  StronglySorted str_le (sorted X) /\ sorted X ≡ₚ elements X /\
  forall l, l ≡ₚ elements X -> merge_sort str_le l = sorted X.
Proof.
  unfold sorted. split; [apply StronglySorted_merge_sort; apply _|]. split.
  - rewrite merge_sort_Permutation. apply w_iter_perm.
  - intros l Hl. apply (StronglySorted_unique str_le).
    + apply StronglySorted_merge_sort; apply _.
    + apply StronglySorted_merge_sort; apply _.
    + rewrite !merge_sort_Permutation, Hl. symmetry. apply w_iter_perm.
Qed.

(** ** Paths *)

Lemma rfind_app c a b :
  rfind c (a ++ b) =
  match rfind c b with Some i => Some (length a + i) | None => rfind c a end.
Proof.
  induction a as [|d a IH]; simpl.
  - by destruct (rfind c b).
  - rewrite IH. by destruct (rfind c b).
Qed.

Lemma split_on_no_sep sep s :
  Forall (fun c => c <> sep) s -> split_on sep s = [s].
Proof.
  induction 1 as [|c s Hc Hs IH]; simpl; [done|].
  rewrite IH. by destruct (N.eqb_spec c sep).
Qed.

Lemma Path_of_name name :
  name <> [] -> name <> [chr_dot] -> Forall (fun c => c <> chr_slash) name ->
  Path_of name = {| p_root := []; p_tail := [name] |}.
Proof.
  intros H1 H2 H3. unfold Path_of.
  assert (splitroot name = ([], name)) as ->.
  { destruct name as [|c name]; [done|]. simpl.
    inversion H3; subst. by destruct (N.eqb_spec c chr_slash). }
  rewrite split_on_no_sep by done.
  rewrite filter_cons_True; [done|].
  unfold keep_component, str_eqb. by rewrite !bool_decide_eq_false_2 by done.
Qed.

Lemma Path_join_name p name :
  name <> [] -> name <> [chr_dot] -> Forall (fun c => c <> chr_slash) name ->
  Path_join p name = {| p_root := p_root p; p_tail := p_tail p ++ [name] |}.
Proof. intros H1 H2 H3. unfold Path_join. by rewrite Path_of_name. Qed.

Lemma removelast_snoc {A} (l : list A) x : removelast (l ++ [x]) = l.
Proof. rewrite removelast_app by done. simpl. apply app_nil_r. Qed.

Lemma Path_suffix_ext root tail stem ext :
  stem <> [] -> ext <> [] -> rfind chr_dot ext = None ->
  Path_suffix {| p_root := root; p_tail := tail ++ [stem ++ chr_dot :: ext] |}
  = chr_dot :: ext.
Proof.
  intros H1 H2 H3. unfold Path_suffix, Path_name. simpl. rewrite last_snoc. simpl.
  rewrite rfind_app. simpl. rewrite H3.
  replace (length stem + 0) with (length stem) by lia.
  assert (0 < length stem) by (destruct stem; [done|simpl; lia]).
  assert (0 < length ext) by (destruct ext; [done|simpl; lia]).
  rewrite drop_app_length.
  destruct (Nat.ltb_spec 0 (length stem)); [|lia].
  destruct (Nat.ltb_spec (S (length stem)) (length (stem ++ chr_dot :: ext))) as [|Hn];
    [done|].
  rewrite length_app in Hn. simpl in Hn. lia.
Qed.

Lemma digit_not_slash n : digit n <> chr_slash.
Proof. unfold digit, chr_slash. lia. Qed.

Lemma strftime_no_slash d : Forall (fun c => c <> chr_slash) (strftime d).
Proof.
  unfold strftime, pad4, pad2.
  repeat (apply Forall_app; split); repeat constructor;
    first [apply digit_not_slash | done].
Qed.

(** ** The writers *)

Ltac run_ok Hos :=
  destruct Hos as (Hmk & Hop & Hwr);
  repeat (unfold bind, ret, mkdir, open_file, write_file, print, emit; simpl;
          rewrite ?Hmk, ?Hop, ?Hwr; simpl).

Ltac trace_since :=
  unfold events_since; simpl; rewrite <- ?app_assoc; rewrite drop_app_length; simpl.

Lemma writes_of_app a b : writes_of (a ++ b) = writes_of a ++ writes_of b.
Proof. apply omap_app. Qed.

Lemma events_since_app st st' evs :
  st_trace st' = st_trace st ++ evs -> events_since st st' = evs.
Proof. unfold events_since. intros ->. by rewrite drop_app_length. Qed.

(** Facts about the literals of the source, by evaluation. *)

Lemma ext_jpg_valid : bool_decide (chr_dot :: py "jpg" ∈ VALID_BINARY_EXT) = true.
Proof. vm_compute. reflexivity. Qed.

Lemma ext_txt_valid : bool_decide (chr_dot :: py "txt" ∈ VALID_TEXT_EXT) = true.
Proof. vm_compute. reflexivity. Qed.

Lemma ext_txt_not_binary : py ".txt" ∉ VALID_BINARY_EXT.
Proof. intros H. apply (bool_decide_pack _) in H. vm_compute in H. exact H. Qed.

Lemma ext_jpg_not_text : py ".jpg" ∉ VALID_TEXT_EXT.
Proof. intros H. apply (bool_decide_pack _) in H. vm_compute in H. exact H. Qed.

Lemma py_txt_eq : py ".txt" = chr_dot :: py "txt".
Proof. reflexivity. Qed.

Lemma py_jpg_eq : py ".jpg" = chr_dot :: py "jpg".
Proof. reflexivity. Qed.

Lemma filename_for_binary ts :
  filename_for (ContentType_value JPEG) ts = (py "image_" ++ ts) ++ chr_dot :: py "jpg".
Proof. unfold filename_for. rewrite <- app_assoc. reflexivity. Qed.

Lemma filename_for_text ts :
  filename_for (ContentType_value HTML) ts = (py "content_" ++ ts) ++ chr_dot :: py "txt".
Proof. unfold filename_for. rewrite <- app_assoc. reflexivity. Qed.

Lemma words_name_eq ts :
  py "dangerous_words_" ++ ts ++ py ".txt"
  = (py "dangerous_words_" ++ ts) ++ chr_dot :: py "txt".
Proof. rewrite <- app_assoc. reflexivity. Qed.

Lemma plain_prefixes :
  plain_prefix (py "image_") /\ plain_prefix (py "content_")
  /\ plain_prefix (py "dangerous_words_").
Proof.
  repeat split; try discriminate; apply (bool_decide_unpack _); vm_compute; exact I.
Qed.

Lemma plain_exts :
  (py "jpg" <> [] /\ rfind chr_dot (py "jpg") = None
   /\ Forall (fun c => c <> chr_slash) (py "jpg")) /\
  (py "txt" <> [] /\ rfind chr_dot (py "txt") = None
   /\ Forall (fun c => c <> chr_slash) (py "txt")).
Proof.
  repeat split; try discriminate; apply (bool_decide_unpack _); vm_compute; exact I.
Qed.

Lemma generated_path dir pre ts ext :
  plain_prefix pre -> Forall (fun c => c <> chr_slash) ts ->
  ext <> [] -> rfind chr_dot ext = None -> Forall (fun c => c <> chr_slash) ext ->
  let name := (pre ++ ts) ++ chr_dot :: ext in
  Path_join dir name = {| p_root := p_root dir; p_tail := p_tail dir ++ [name] |} /\
  Path_suffix (Path_join dir name) = chr_dot :: ext /\
  Path_name (Path_join dir name) = name /\
  Path_parent (Path_join dir name) = dir.
Proof.
  intros [Hp1 Hp2] Hts He1 He2 He3 name.
  assert (pre ++ ts <> []) as Hstem by by destruct pre.
  assert (Path_join dir name = {| p_root := p_root dir; p_tail := p_tail dir ++ [name] |})
    as ->.
  { apply Path_join_name.
    - subst name. by destruct (pre ++ ts).
    - subst name. destruct (pre ++ ts) as [|c [|c' s]]; done.
    - subst name. rewrite !Forall_app, list.Forall_cons. done. }
  split; [done|]. split; [by apply Path_suffix_ext|]. split.
  - unfold Path_name. simpl. by rewrite last_snoc.
  - unfold Path_parent. simpl. rewrite removelast_snoc. by destruct dir.
Qed.

Lemma timestamp_at_no_slash st tr :
  State_wf st -> Forall (fun c => c <> chr_slash) (timestamp_at st tr).
Proof.
  intros Hwf. unfold timestamp_at. destruct (st_timestamp st) as [ts|] eqn:Hts.
  - destruct (Hwf ts Hts) as [d ->]. apply strftime_no_slash.
  - apply strftime_no_slash.
Qed.

Lemma generate_timestamp_run st :
  generate_timestamp st = (Ok (timestamp_at st (st_trace st)), timestamp_taken st).
Proof.
  unfold generate_timestamp, timestamp_at, timestamp_taken.
  by destruct (st_timestamp st).
Qed.

Lemma generate_filename_run content_type st :
  generate_filename content_type st
  = (Ok (filename_for content_type (timestamp_at st (st_trace st))), timestamp_taken st).
Proof. unfold generate_filename, bind. by rewrite generate_timestamp_run. Qed.

Lemma timestamp_taken_trace st :
  exists evs, st_trace (timestamp_taken st) = st_trace st ++ evs /\ writes_of evs = [].
Proof.
  unfold timestamp_taken. destruct (st_timestamp st).
  - exists []. by rewrite app_nil_r.
  - by exists [ENow].
Qed.

#[local] Opaque py.

Lemma save_dangerous_words_steps X path st :
  os_succeeds ->
  w_is_dir w (st_trace st) (Path_of (strip_quotes path)) = true
  \/ Path_name (Path_of (strip_quotes path)) <> [] ->
  exists st' evs,
    save_dangerous_words X path st = (Ok tt, st') /\
    st_trace st' = st_trace st ++ evs /\
    writes_of evs =
    [(words_target st path,
      CStr (if bool_decide (X = ∅) then py "No dangerous words found"
            else str_join [chr_nl] (sorted X)))].
Proof.
  intros Hos Hp. unfold save_dangerous_words, words_target, try_except.
  unfold bind at 1. unfold is_dir at 1. simpl.
  set (p := Path_of (strip_quotes path)) in *.
  destruct (w_is_dir w (st_trace st) p) eqn:Hd.
  - unfold bind at 1. unfold bind at 1. unfold generate_timestamp, timestamp_at. simpl.
    destruct (st_timestamp st) as [ts|] eqn:Hts; run_ok Hos;
      eexists _, _; (split; [reflexivity|]); simpl; rewrite <- ?app_assoc;
      (split; [reflexivity|]); reflexivity.
  - destruct Hp as [?|Hn]; [done|].
    destruct (str_eqb (Path_suffix p) []).
    + unfold with_suffix, str_eqb. rewrite bool_decide_eq_false_2 by done.
      run_ok Hos.
      eexists _, _; (split; [reflexivity|]); simpl; rewrite <- ?app_assoc;
      (split; [reflexivity|]); reflexivity.
    + run_ok Hos.
      eexists _, _; (split; [reflexivity|]); simpl; rewrite <- ?app_assoc;
      (split; [reflexivity|]); reflexivity.
Qed.

Lemma save_dangerous_words_run X path st :
  os_succeeds ->
  w_is_dir w (st_trace st) (Path_of (strip_quotes path)) = true
  \/ Path_name (Path_of (strip_quotes path)) <> [] ->
  (save_dangerous_words X path st).1 = Ok tt /\
  writes_of (events_since st (save_dangerous_words X path st).2) =
  [(words_target st path,
    CStr (if bool_decide (X = ∅) then py "No dangerous words found"
          else str_join [chr_nl] (sorted X)))].
Proof.
  intros Hos Hp.
  destruct (save_dangerous_words_steps X path st Hos Hp) as (st' & evs & -> & H2 & H3).
  simpl. by rewrite (events_since_app _ _ _ H2).
Qed.

(** C6: when nothing on the denylist was found, [save_dangerous_words]
    writes one file, and all it writes to it is the text
    [No dangerous words found]. *)
Theorem save_dangerous_words_none_found path st :
  os_succeeds ->
  w_is_dir w (st_trace st) (Path_of (strip_quotes path)) = true
  \/ Path_name (Path_of (strip_quotes path)) <> [] ->
  (save_dangerous_words ∅ path st).1 = Ok tt /\
  writes_of (events_since st (save_dangerous_words ∅ path st).2) =
  [(words_target st path, CStr (py "No dangerous words found"))].
Proof.
  intros Hos Hp. destruct (save_dangerous_words_run ∅ path st Hos Hp) as [H1 H2].
  by rewrite bool_decide_eq_true_2 in H2 by done.
Qed.

(** C10: when words were found, the one file [save_dangerous_words] writes
    holds them joined by newlines, in ascending order of [str]; the lines
    are those of the set, and the same whatever the order in which the set
    is iterated. *)
Theorem save_dangerous_words_sorted_lines X path st :
  X <> ∅ ->
  os_succeeds ->
  w_is_dir w (st_trace st) (Path_of (strip_quotes path)) = true
  \/ Path_name (Path_of (strip_quotes path)) <> [] ->
  exists lines,
    (save_dangerous_words X path st).1 = Ok tt /\
    writes_of (events_since st (save_dangerous_words X path st).2) =
    [(words_target st path, CStr (str_join [chr_nl] lines))] /\
    StronglySorted str_le lines /\
    lines ≡ₚ elements X /\
    forall l, l ≡ₚ elements X -> merge_sort str_le l = lines.
Proof.
  intros HX Hos Hp. exists (sorted X).
  destruct (save_dangerous_words_run X path st Hos Hp) as [H1 H2].
  rewrite bool_decide_eq_false_2 in H2 by done.
  destruct (sorted_spec X) as (H3 & H4 & H5). done.
Qed.

(** C7: given an existing directory, [save_content] writes to a file inside
    it whose name is built from the timestamp: [image_<timestamp>.jpg] in
    binary mode and [content_<timestamp>.txt] in text mode. *)
Theorem save_content_in_directory content path is_binary st :
  let dir := Path_of (strip_quotes path) in
  let ts := timestamp_at st (st_trace st ++ [EIsDir dir]) in
  let name := generated_name is_binary ts in
  let target := Path_join dir name in
  w_is_dir w (st_trace st) dir = true ->
  State_wf st -> os_succeeds -> content_fits is_binary content ->
  name = (if is_binary then py "image_" ++ ts ++ py ".jpg"
          else py "content_" ++ ts ++ py ".txt") /\
  Path_parent target = dir /\ Path_name target = name /\
  Path_suffix target = (if is_binary then py ".jpg" else py ".txt") /\
  (save_content content path is_binary st).1 = Ok tt /\
  writes_of (events_since st (save_content content path is_binary st).2)
  = [(target, content)].
Proof.
  intros dir ts name target Hd Hwf Hos Hfit.
  pose proof (timestamp_at_no_slash st (st_trace st ++ [EIsDir dir]) Hwf) as Hts.
  fold ts in Hts.
  destruct plain_prefixes as (Hp1 & Hp2 & _). destruct plain_exts as [(J1 & J2 & J3) (T1 & T2 & T3)].
  assert (exists pre ext,
            name = (pre ++ ts) ++ chr_dot :: ext /\ plain_prefix pre /\ ext <> [] /\
            rfind chr_dot ext = None /\ Forall (fun c => c <> chr_slash) ext /\
            chr_dot :: ext = (if is_binary then py ".jpg" else py ".txt") /\
            (if is_binary then bool_decide (chr_dot :: ext ∈ VALID_BINARY_EXT)
             else bool_decide (chr_dot :: ext ∈ VALID_TEXT_EXT)) = true)
    as (pre & ext & Hname & Hpre & E1 & E2 & E3 & E4 & E5).
  { subst name. unfold generated_name. destruct is_binary.
    - exists (py "image_"), (py "jpg"). rewrite filename_for_binary.
      split_and!; first [done | apply ext_jpg_valid].
    - exists (py "content_"), (py "txt"). rewrite filename_for_text.
      split_and!; first [done | apply ext_txt_valid]. }
  destruct (generated_path dir pre ts ext Hpre Hts E1 E2 E3) as (G1 & G2 & G3 & G4).
  rewrite <- Hname in G1, G2, G3, G4. fold target in G1, G2, G3, G4.
  split.
  { subst name. unfold generated_name. destruct is_binary; reflexivity. }
  split; [done|]. split; [done|]. split; [by rewrite G2|].
  assert (exists st' evs,
            save_content content path is_binary st = (Ok tt, st') /\
            st_trace st' = st_trace st ++ evs /\
            writes_of evs = [(target, content)]) as (st' & evs & -> & H2 & H3).
  { unfold save_content, try_except.
    unfold bind at 1. unfold is_dir at 1. simpl. fold dir. rewrite Hd.
    unfold bind at 1. unfold bind at 1. rewrite generate_filename_run.
    simpl.
    change (timestamp_at (emit (EIsDir dir) st) (st_trace st ++ [EIsDir dir])) with ts.
    fold (generated_name is_binary ts). fold name. fold target.
    clearbody target name.
    unfold bind at 1. rewrite G2. unfold str_eqb at 1.
    rewrite bool_decide_eq_false_2 by done. unfold ret at 1. rewrite G2, G4.
    destruct (timestamp_taken_trace (emit (EIsDir dir) st)) as (evs0 & Hev & Hw0).
    set (st1 := timestamp_taken _) in *. clearbody st1.
    destruct is_binary; rewrite E5; simpl;
      destruct content; try done; run_ok Hos; rewrite Hev;
      eexists _, _; (split; [reflexivity|]); simpl; rewrite <- ?app_assoc;
      (split; [reflexivity|]); rewrite !writes_of_app, Hw0; reflexivity. }
  simpl. split; [done|]. by rewrite (events_since_app _ _ _ H2).
Qed.

Lemma Path_suffix_name p : Path_suffix p <> [] -> Path_name p <> [].
Proof. unfold Path_suffix. intros H Hn. by rewrite Hn in H. Qed.

(** [save_dangerous_words] checks no extension: a path that is not a
    directory and has a suffix is written as given. *)
Lemma save_dangerous_words_keeps_path X path st :
  let p := Path_of (strip_quotes path) in
  w_is_dir w (st_trace st) p = false ->
  Path_suffix p <> [] -> os_succeeds ->
  (save_dangerous_words X path st).1 = Ok tt /\
  writes_of (events_since st (save_dangerous_words X path st).2) =
  [(p, CStr (if bool_decide (X = ∅) then py "No dangerous words found"
             else str_join [chr_nl] (sorted X)))].
Proof.
  intros p Hd Hne Hos.
  destruct (save_dangerous_words_run X path st Hos) as [H1 H2].
  { right. by apply Path_suffix_name. }
  split; [done|]. rewrite H2. unfold words_target. fold p. rewrite Hd.
  unfold str_eqb. by rewrite bool_decide_eq_false_2 by done.
Qed.

(** C4, as the code has it: for a path that is not an existing directory,
    [save_content] refuses a binary write to a [.txt] name and a text write
    to a [.jpg] name with [URLFetcherError], before anything is created. *)
Theorem save_content_rejects_extension content path st :
  let p := Path_of (strip_quotes path) in
  w_is_dir w (st_trace st) p = false ->
  (Path_suffix p = py ".txt" ->
   save_content content path true st =
   (Raise (Exc URLFetcherError
             (py "Invalid binary extension: " ++ py ".txt" ++ py ". Expected: "
              ++ str_join (py ", ") (w_iter w VALID_BINARY_EXT))),
    emit (EIsDir p) st)) /\
  (Path_suffix p = py ".jpg" ->
   save_content content path false st =
   (Raise (Exc URLFetcherError
             (py "Invalid text extension: " ++ py ".jpg" ++ py ". Expected: "
              ++ str_join (py ", ") (w_iter w VALID_TEXT_EXT))),
    emit (EIsDir p) st)).
Proof.
  intros p Hd. split.
  - intros Hs. unfold save_content, try_except.
    unfold bind at 1. unfold is_dir at 1. simpl. fold p. rewrite Hd.
    unfold bind at 1. unfold ret at 1. unfold bind at 1.
    rewrite Hs, py_txt_eq. unfold str_eqb at 1. rewrite bool_decide_eq_false_2 by done.
    unfold ret at 1. rewrite Hs.
    rewrite (bool_decide_eq_false_2 _ ext_txt_not_binary). reflexivity.
  - intros Hs. unfold save_content, try_except.
    unfold bind at 1. unfold is_dir at 1. simpl. fold p. rewrite Hd.
    unfold bind at 1. unfold ret at 1. unfold bind at 1.
    rewrite Hs, py_jpg_eq. unfold str_eqb at 1. rewrite bool_decide_eq_false_2 by done.
    unfold ret at 1. rewrite Hs.
    rewrite (bool_decide_eq_false_2 _ ext_jpg_not_text). reflexivity.
Qed.

(** ** The pipeline *)

(** A URL typed without a scheme passes [check_url], which prefixes it, and
    then reaches [load_url] as typed: the [ValueError] of [urlopen] leaves
    [main], and the only request made is the one of [check_url]. *)
Lemma main_no_scheme_escapes st line content_type :
  let prompt := py "Give me a valid URL to download? " in
  let url := strip line in
  w_input w (st_trace st) prompt = Ok line ->
  has_scheme url = false ->
  (check_url url (emit (EInput prompt) st)).1 = Ok (true, Some content_type) ->
  (main st).1 = Raise (Exc ValueError (w_unknown_url_msg w url)) /\
  st_trace (main st).2 = st_trace st ++ [EInput prompt; check_request url].
Proof.
  intros prompt url Hin Hs Hc.
  assert (main st = (Raise (Exc ValueError (w_unknown_url_msg w url)),
                     (check_url url (emit (EInput prompt) st)).2)) as ->.
  { unfold main, try_except. unfold bind at 1. unfold input at 1. fold prompt.
    rewrite Hin. fold url. unfold bind at 1.
    destruct (check_url url (emit (EInput prompt) st)) as [res st1].
    simpl in Hc. subst res. simpl.
    unfold bind at 1. by rewrite load_url_no_scheme by done. }
  split; [done|]. simpl. rewrite check_url_request. simpl. by rewrite <- app_assoc.
Qed.

End Unicode.

(** * Runs in the sample environments *)

Lemma sample_world_os_succeeds inputs serve dirs :
  os_succeeds (sample_world inputs serve dirs).
Proof. by repeat split. Qed.

(** C1, as stated, fails: a response that is not JPEG and whose body is
    not valid UTF-8 is not classified as invalid; [check_url] raises. *)
Lemma check_url_undecodable_raises :
  let r := {| resp_content_type := Some (py "text/html"); resp_read := Ok [255%N] |} in
  let w := sample_world [] (fun _ => Ok r) [] in
  get_content_type no_unicode_tolower r = py "text/html" /\
  decode_utf8 [255%N] = None /\
  (check_url no_unicode_tolower w (py "example.com") initial_state).1
  = Raise (Exc URLFetcherError (py "URL validation failed: invalid start byte")) /\
  (check_url no_unicode_tolower w (py "example.com") initial_state).1
  <> Ok (false, None).
Proof. split_and!; [vm_compute; reflexivity..|discriminate]. Qed.

Lemma check_url_classifies_witness :
  let jpeg := {| resp_content_type := Some (py "image/jpeg"); resp_read := Ok [255%N] |} in
  let html := {| resp_content_type := Some (py "text/html; charset=utf-8");
                 resp_read := Ok (py "<p>hi</p>") |} in
  (check_url no_unicode_tolower (sample_world [] (fun _ => Ok jpeg) [])
     (py "example.com") initial_state).1
  = Ok (true, Some (py "image/jpeg")) /\
  (check_url no_unicode_tolower (sample_world [] (fun _ => Ok html) [])
     (py "example.com") initial_state).1
  = Ok (true, Some (py "text/html")).
Proof.
  intros jpeg html. split.
  - apply (check_url_classifies no_unicode_tolower
             (sample_world [] (fun _ => Ok jpeg) []) (py "example.com") initial_state jpeg).
    + reflexivity.
    + left. reflexivity.
  - apply (proj2 (check_url_classifies no_unicode_tolower
             (sample_world [] (fun _ => Ok html) []) (py "example.com") initial_state html
             eq_refl) ltac:(vm_compute; discriminate) (py "<p>hi</p>") eq_refl).
Defined.

(** C3: [load_url] lets the [UnicodeDecodeError] of a body that is not
    valid UTF-8 escape; [check_url] turns the same failure into
    [URLFetcherError]. *)
Theorem load_url_decode_error_escapes :
  let w := sample_world [] (serve_http "text/html" [255%N]) [] in
  (load_url w (py "http://example.com") false initial_state).1
  = Raise (Exc UnicodeDecodeError (py "invalid start byte")) /\
  (check_url no_unicode_tolower w (py "http://example.com") initial_state).1
  = Raise (Exc URLFetcherError (py "URL validation failed: invalid start byte")).
Proof. split; vm_compute; reflexivity. Qed.

(** C5: with [example.com] typed at the prompt, [check_url] asks for
    [http://example.com], and [main] then hands the text as typed to
    [load_url]: no second request is made and the [ValueError] of [urlopen]
    leaves [main].  With [localhost:8000] typed, [urlopen] is asked for
    [localhost:8000] the second time, not for [http://localhost:8000], and
    fails; nothing is saved in either run. *)
Theorem main_downloads_url_as_typed :
  let page := serve_http "text/html" (py "hello") in
  let run1 := main no_unicode_isalnum no_unicode_tolower
                (sample_world [py "example.com"; py "out"] page []) initial_state in
  let run2 := main no_unicode_isalnum no_unicode_tolower
                (sample_world [py "localhost:8000"; py "out"] page []) initial_state in
  run1.1 = Raise (Exc ValueError (py "unknown url type: 'example.com'")) /\
  requests_of (st_trace run1.2) = [py "http://example.com"] /\
  requests_of (st_trace run2.2) = [py "http://localhost:8000"; py "localhost:8000"] /\
  writes_of (st_trace run1.2) = [] /\ writes_of (st_trace run2.2) = [].
Proof. split_and!; vm_compute; reflexivity. Qed.

(** C4, as stated, fails: the HTML branch writes its text to a [.jpg] name
    without complaint, and a binary write to an existing directory named
    [d.txt] goes to a generated file inside it. *)
Lemma text_write_to_jpg_accepted :
  let page := serve_http "text/html" (py "<p>kill</p>") in
  let run := main no_unicode_isalnum no_unicode_tolower
               (sample_world [py "http://example.com"; py "out.jpg"] page [])
               initial_state in
  let w := sample_world [] page [Path_of (py "d.txt")] in
  Path_suffix (Path_of (py "out.jpg")) = py ".jpg" /\
  run.1 = Ok tt /\
  writes_of (st_trace run.2) = [(Path_of (py "out.jpg"), CStr (py "kill"))] /\
  Path_suffix (Path_of (py "d.txt")) = py ".txt" /\
  (save_content w (CBytes [1%N]) (py "d.txt") true initial_state).1 = Ok tt.
Proof. split_and!; vm_compute; reflexivity. Qed.

Lemma save_content_rejects_extension_witness :
  let w := sample_world [] (serve_http "text/html" []) [] in
  (save_content w (CBytes [1%N]) (py "notes.txt") true initial_state).1
  = Raise (Exc URLFetcherError
             (py "Invalid binary extension: .txt. Expected: "
              ++ str_join (py ", ") (elements VALID_BINARY_EXT))) /\
  (save_content w (CStr (py "hi")) (py "photo.jpg") false initial_state).1
  = Raise (Exc URLFetcherError
             (py "Invalid text extension: .jpg. Expected: "
              ++ str_join (py ", ") (elements VALID_TEXT_EXT))) /\
  writes_of (st_trace (save_content w (CBytes [1%N]) (py "notes.txt") true
                         initial_state).2) = [].
Proof.
  intros w.
  pose proof (proj1 (save_content_rejects_extension w (CBytes [1%N]) (py "notes.txt")
                       initial_state eq_refl) eq_refl) as H1.
  pose proof (proj2 (save_content_rejects_extension w (CStr (py "hi")) (py "photo.jpg")
                       initial_state eq_refl) eq_refl) as H2.
  split_and!.
  - exact (f_equal fst H1).
  - exact (f_equal fst H2).
  - rewrite H1. reflexivity.
Defined.

Lemma save_dangerous_words_none_found_witness :
  let w := sample_world [] (serve_http "text/html" []) [Path_of (py "reports")] in
  ((save_dangerous_words w ∅ (py "out") initial_state).1 = Ok tt /\
   writes_of (events_since initial_state
                (save_dangerous_words w ∅ (py "out") initial_state).2)
   = [(Path_of (py "out.txt"), CStr (py "No dangerous words found"))]) /\
  ((save_dangerous_words w ∅ (py "reports") initial_state).1 = Ok tt /\
   writes_of (events_since initial_state
                (save_dangerous_words w ∅ (py "reports") initial_state).2)
   = [(Path_of (py "reports/dangerous_words_20240307_090001.txt"),
       CStr (py "No dangerous words found"))]).
Proof.
  intros w. split.
  - apply (save_dangerous_words_none_found w (py "out") initial_state
             (sample_world_os_succeeds _ _ _)).
    right. vm_compute. discriminate.
  - apply (save_dangerous_words_none_found w (py "reports") initial_state
             (sample_world_os_succeeds _ _ _)).
    left. vm_compute. reflexivity.
Defined.

Lemma save_dangerous_words_sorted_lines_witness :
  let w := sample_world [] (serve_http "text/html" []) [] in
  let X : gset str := {[ py "terror"; py "kill"; py "bomb" ]} in
  exists lines,
    (save_dangerous_words w X (py "out") initial_state).1 = Ok tt /\
    writes_of (events_since initial_state
                 (save_dangerous_words w X (py "out") initial_state).2)
    = [(words_target w initial_state (py "out"), CStr (str_join [chr_nl] lines))] /\
    StronglySorted str_le lines /\
    lines ≡ₚ elements X /\
    forall l, l ≡ₚ elements X -> merge_sort str_le l = lines.
Proof.
  intros w X.
  apply (save_dangerous_words_sorted_lines w X (py "out") initial_state).
  - intros H. assert (py "bomb" ∈ X) as Hin by set_solver. rewrite H in Hin.
    by apply not_elem_of_empty in Hin.
  - apply sample_world_os_succeeds.
  - right. vm_compute. discriminate.
Defined.

Lemma save_content_in_directory_witness :
  let w := sample_world [] (serve_http "image/jpeg" []) [Path_of (py "pics")] in
  let target := Path_of (py "pics/image_20240307_090001.jpg") in
  Path_parent target = Path_of (py "pics") /\
  Path_suffix target = py ".jpg" /\
  (save_content w (CBytes [255%N; 216%N]) (py "pics") true initial_state).1 = Ok tt /\
  writes_of (events_since initial_state
               (save_content w (CBytes [255%N; 216%N]) (py "pics") true initial_state).2)
  = [(target, CBytes [255%N; 216%N])].
Proof.
  intros w target.
  destruct (save_content_in_directory w (CBytes [255%N; 216%N]) (py "pics") true
              initial_state eq_refl initial_state_wf (sample_world_os_succeeds _ _ _) I)
    as (_ & H2 & _ & H4 & H5 & H6).
  split_and!; [exact H2|exact H4|exact H5|exact H6].
Defined.

Lemma generate_timestamp_memoised_witness :
  let w := sample_world [] (serve_http "text/html" []) [] in
  let st2 := {| st_trace := [ENow; EPrint []; EPrint []];
                st_timestamp := Some (py "20240307_090000") |} in
  strftime (w_now w (st_trace st2)) = py "20240307_090003" /\
  exists ts,
    (generate_timestamp w initial_state).1 = Ok ts /\
    generate_timestamp w st2 = (Ok ts, st2) /\
    forall content_type,
      generate_filename w content_type st2 = (Ok (filename_for content_type ts), st2).
Proof.
  intros w st2. split; [reflexivity|].
  apply (generate_timestamp_memoised w initial_state st2).
  intros ts H. exact H.
Defined.

Lemma clean_then_scan_strips_tags_witness :
  HTML_CLEANER_sub (py "ki<b>ll</b> the <br/>bomb<i>astic") = py "kill the bombastic" /\
  count_words no_unicode_isalnum no_unicode_tolower
    (HTML_CLEANER_sub (py "ki<b>ll</b> the <br/>bomb<i>astic")) = {[ py "kill" ]}.
Proof.
  assert (py "ki<b>ll</b> the <br/>bomb<i>astic"
          = markup [(py "ki", py "b"); (py "ll", py "/b"); (py " the ", py "br/");
                    (py "bomb", py "i")] (py "astic")) as -> by reflexivity.
  destruct (proj1 (proj2 (proj2
              (clean_then_scan_strips_tags no_unicode_isalnum no_unicode_tolower)))
              [(py "ki", py "b"); (py "ll", py "/b"); (py " the ", py "br/");
               (py "bomb", py "i")] (py "astic") eq_refl) as (H1 & _ & H3).
  rewrite H3, H1. split; vm_compute; reflexivity.
Defined.
